(** * fake-service: synthetic load generator and gRPC duration budget

    A shallow embedding of the Go package [load] (the node load generator,
    in its current form with an explicit phase state and in its earlier form
    kept in [load/node_generator.go]) and of [handlers.FakeServer.Handle]
    from [handlers/request_grpc.go], followed by the properties checked
    against the specification.

    Conventions of the embedding.
    - Go [int] and [time.Duration] are 64-bit two's complement integers:
      they are values of [Z], and every arithmetic operation of the source
      is followed by [Go.wrap64].  Integer [/] and [%] truncate toward zero
      ([Z.quot], [Z.rem]) and panic on a zero divisor.
    - Go [float64] is idealised as exact rational arithmetic ([Q]): rounding
      error, infinities and NaN are not represented.  [int(x)] of a float is
      truncation toward zero; Go defines it only when the truncated value
      fits the integer type.
    - A panic is [None].
    - Calls to the logger only observe values and are left out.
    - [math.Sin], [math.Pi] and the results of [rand.Intn] and
      [rand.Float64] are inputs of the model. *)

From Stdlib Require Import ZArith QArith Qround Qabs Lqa Lia List String Bool.
From Stdlib Require Import Ascii DecimalString.
From Equations Require Import Equations.
Import ListNotations.

Local Open Scope Z_scope.

(* ------------------------------------------------------------------ *)
(** ** Go numeric types *)

Module Go.

Definition wrap64 (z : Z) : Z := (z + 2 ^ 63) mod 2 ^ 64 - 2 ^ 63.

Definition fits_int (z : Z) : Prop := - 2 ^ 63 <= z < 2 ^ 63.

Definition int_add (a b : Z) : Z := wrap64 (a + b).
Definition int_sub (a b : Z) : Z := wrap64 (a - b).
Definition int_mul (a b : Z) : Z := wrap64 (a * b).

(** [a / b] on integers: panics on [b = 0], truncates toward zero. *)
Definition int_quo (a b : Z) : option Z :=
  if b =? 0 then None else Some (wrap64 (a ÷ b)).

(** [a % b] on integers: panics on [b = 0], sign follows the dividend. *)
Definition int_rem (a b : Z) : option Z :=
  if b =? 0 then None else Some (Z.rem a b).

(** [float64(n)] *)
Definition float64_of_int (n : Z) : Q := inject_Z n.

(** [int(x)] for a float [x]: the fractional part is discarded. *)
Definition int_of_float64 (x : Q) : Z := Qnum x ÷ Zpos (Qden x).

(** [math.Copysign(x, s)]: magnitude of [x], sign of [s]. *)
Definition Copysign (x s : Q) : Q :=
  if Qle_bool 0 s then Qabs x else - Qabs x.

(** [int(math.Pow(2, 20))] and [math.Pow(2, 20)] *)
Definition pow_2_20 : Z := 1048576.

(** Constants of package [time], in nanoseconds. *)
Definition Microsecond : Z := 1000.
Definition Millisecond : Z := 1000000.
Definition Second : Z := 1000000000.

(** [t.Sub(u)] of package [time] saturates instead of wrapping. *)
Definition time_Sub (t u : Z) : Z :=
  Z.max (- 2 ^ 63) (Z.min (2 ^ 63 - 1) (t - u)).

(** [strconv.Itoa] *)
Definition Itoa (n : Z) : string := NilZero.string_of_int (Z.to_int n).

(** Option as the panic monad. *)
Definition bind {A B} (m : option A) (k : A -> option B) : option B :=
  match m with
  | Some a => k a
  | None => None
  end.

End Go.

Notation "x <- m ;; k" := (Go.bind m (fun x => k))
  (at level 61, m at next level, right associativity).

(* ------------------------------------------------------------------ *)
(** ** Buffered channels of [struct{}]

    Only the number of buffered elements and of parked receivers matters
    for a channel whose elements carry no data. *)

Module Chan.

Record t := mk { cap : nat; buffered : nat; receivers : nat }.

(** [make(chan struct{}, n)] *)
Definition make (n : nat) : t := mk n 0 0.

(** [c <- struct{}{}].  The send completes at once when a receiver is
    parked (direct hand-off) or when the buffer has room; otherwise the
    sender blocks, which is [None]. *)
Definition send (c : t) : option t :=
  match receivers c with
  | S r => Some (mk (cap c) (buffered c) r)
  | O => if (buffered c <? cap c)%nat
         then Some (mk (cap c) (S (buffered c)) 0)
         else None
  end.

(** [<-c].  The receiver takes a buffered element when there is one and
    parks otherwise. *)
Definition recv (c : t) : t :=
  match buffered c with
  | S b => mk (cap c) b (receivers c)
  | O => mk (cap c) 0 (S (receivers c))
  end.

End Chan.

(* ------------------------------------------------------------------ *)
(** ** Package [load]: the node generator with a phase state *)

Module Load.

Definition TICK_INTERVAL : Z := 500 * Go.Millisecond.

Record NodeGeneratorState := mkState {
  baselineBytes : Z;      (* memoryMBytes as bytes *)
  maxVarianceBytes : Q;   (* variancePercent of baselineBytes as a float *)
  currentBytes : Z;       (* memory in bytes *)
  currentTick : Z;        (* value in the interval [0,ticksPerPeriod) *)
  startTime : Z;          (* time the NodeGenerator was started *)
  lastTickTime : Z;       (* time the last tick started *)
  ticksPerPeriod : Z      (* number of ticks that fit in the period *)
}.

Record NodeGenerator := mkGen {
  cpuCoresCount : Q;
  cpuPercentage : Q;
  memoryMBytes : Z;
  memoryVariance : Z;     (* variance in percent *)
  memoryVarianceFun : string;
  memoryVariancePeriod : Z;
  running : bool;
  state : NodeGeneratorState;
  finished : option Chan.t   (* nil until Generate *)
}.

Definition set_state (g : NodeGenerator) (s : NodeGeneratorState) :=
  mkGen (cpuCoresCount g) (cpuPercentage g) (memoryMBytes g)
        (memoryVariance g) (memoryVarianceFun g) (memoryVariancePeriod g)
        (running g) s (finished g).

Definition set_running (g : NodeGenerator) (b : bool) :=
  mkGen (cpuCoresCount g) (cpuPercentage g) (memoryMBytes g)
        (memoryVariance g) (memoryVarianceFun g) (memoryVariancePeriod g)
        b (state g) (finished g).

Definition set_finished (g : NodeGenerator) (c : option Chan.t) :=
  mkGen (cpuCoresCount g) (cpuPercentage g) (memoryMBytes g)
        (memoryVariance g) (memoryVarianceFun g) (memoryVariancePeriod g)
        (running g) (state g) c.

(** [NewNodeGenerator]; [now0] and [now1] are the two readings of
    [time.Now()]. *)
Definition NewNodeGenerator (cores percentage : Q)
    (memoryMBytes memoryVariance : Z) (memoryVarianceFun : string)
    (memoryVariancePeriod : Z) (now0 now1 : Z) : NodeGenerator :=
  mkGen cores percentage memoryMBytes memoryVariance memoryVarianceFun
        memoryVariancePeriod false
        (mkState
           (Go.int_mul memoryMBytes Go.pow_2_20)
           (inject_Z Go.pow_2_20
              * Go.float64_of_int (Go.int_mul memoryMBytes memoryVariance)
              / 100)%Q
           (Go.int_mul memoryMBytes Go.pow_2_20)
           0
           now0
           now1
           (Go.wrap64 (Go.int_mul memoryVariancePeriod Go.Second
                         ÷ TICK_INTERVAL)))
        None.

(** *** Phase *)

(** [x]: currentTick over ticksPerPeriod. *)
Definition x (g : NodeGenerator) : Q :=
  (Go.float64_of_int (currentTick (state g))
     / Go.float64_of_int (ticksPerPeriod (state g)))%Q.

(** [linearX]: currentTick over ticksPerPeriod - 1. *)
Definition linearX (g : NodeGenerator) : Q :=
  (Go.float64_of_int (currentTick (state g))
     / Go.float64_of_int (Go.int_sub (ticksPerPeriod (state g)) 1))%Q.

(** [tick] moves time forward by one in the state; the remainder panics
    when ticksPerPeriod is 0. *)
Definition tick (g : NodeGenerator) : option NodeGenerator :=
  let s := state g in
  t <- Go.int_rem (Go.int_add (currentTick s) 1) (ticksPerPeriod s) ;;
  Some (set_state g
          (mkState (baselineBytes s) (maxVarianceBytes s) (currentBytes s)
                   t (startTime s) (lastTickTime s) (ticksPerPeriod s))).

(** *** Variance models

    A [varianceFunc] maps the generator to a signed byte delta.  The
    random model additionally consumes one result of [rand.Intn(2)] and
    one of [rand.Float64()], which come with the call as a [Draw]. *)

Record Draw := mkDraw { Intn2 : Z; Float64 : Q }.

Definition varianceFunc := NodeGenerator -> Draw -> Z.

Definition varianceZero : varianceFunc := fun _ _ => 0.

Definition varianceLinear : varianceFunc := fun g _ =>
  let lVal := (2 * linearX g * maxVarianceBytes (state g)
               - maxVarianceBytes (state g))%Q in
  Go.int_of_float64 lVal.

Definition varianceRandom : varianceFunc := fun g d =>
  let rSign := Go.int_mul (Intn2 d) (-1) in
  let rPct := Go.Copysign (Float64 d) (Go.float64_of_int rSign) in
  Go.int_of_float64 (rPct * maxVarianceBytes (state g))%Q.

Section Math.

Variable math_Pi : Q.
Variable math_Sin : Q -> Q.

(** [rad] converts x to radians. *)
Definition rad (g : NodeGenerator) : Q := (2 * math_Pi * x g)%Q.

Definition varianceSineWave : varianceFunc := fun g _ =>
  let rads := rad g in
  let sin := math_Sin rads in
  Go.int_of_float64 (sin * maxVarianceBytes (state g))%Q.

Definition getVarianceFuncByName (g : NodeGenerator) : varianceFunc :=
  if memoryVariance g =? 0 then varianceZero
  else if String.eqb (memoryVarianceFun g) "linear" then varianceLinear
  else if String.eqb (memoryVarianceFun g) "random" then varianceRandom
  else if String.eqb (memoryVarianceFun g) "sine" then varianceSineWave
  else varianceZero.

(** *** Memory pressure loop *)

(** [make([]byte, 0, n)] panics for a negative capacity.  The upper
    limit of the runtime depends on the machine and is not modelled. *)
Definition make_bytes (n : Z) : option unit :=
  if n <? 0 then None else Some tt.

(** What one iteration of the loop reads from outside: the clock and
    the random source. *)
Record TickInput := mkTick { now : Z; draw : Draw }.

(** The body of [for g.running { ... }], up to the sleep that ends it.
    The result carries the capacity requested from the allocator. *)
Definition memoryIteration (delta : varianceFunc) (g : NodeGenerator)
    (i : TickInput) : option (NodeGenerator * Z) :=
  let s := state g in
  let g1 := set_state g
              (mkState (baselineBytes s) (maxVarianceBytes s)
                       (currentBytes s) (currentTick s) (startTime s)
                       (now i) (ticksPerPeriod s)) in
  let newMemLen :=
    Go.int_add (currentBytes (state g1)) (delta g1 (draw i)) in
  _ <- make_bytes newMemLen ;;
  let s1 := state g1 in
  let g2 := set_state g1
              (mkState (baselineBytes s1) (maxVarianceBytes s1)
                       newMemLen (currentTick s1) (startTime s1)
                       (lastTickTime s1) (ticksPerPeriod s1)) in
  g3 <- tick g2 ;;
  Some (g3, newMemLen).

(** The iterations of the loop, one per element of [inputs]: each
    element stands for one evaluation of [g.running] that found it
    set.  The result is the state after the last iteration and the
    capacities requested, oldest first. *)
Fixpoint memoryIterations (delta : varianceFunc) (g : NodeGenerator)
    (inputs : list TickInput) : option (NodeGenerator * list Z) :=
  match inputs with
  | [] => Some (g, [])
  | i :: rest =>
      r <- memoryIteration delta g i ;;
      r' <- memoryIterations delta (fst r) rest ;;
      Some (fst r', snd r :: snd r')
  end.

(** The goroutine started by [generateVaryingMemory]; [start] is the
    clock reading stored in startTime before the first iteration. *)
Definition memoryLoop (delta : varianceFunc) (g : NodeGenerator)
    (start : Z) (inputs : list TickInput)
    : option (NodeGenerator * list Z) :=
  let s := state g in
  memoryIterations delta
    (set_state g
       (mkState (baselineBytes s) (maxVarianceBytes s) (currentBytes s)
                (currentTick s) start (lastTickTime s)
                (ticksPerPeriod s)))
    inputs.

(** *** CPU pressure loop *)

Definition unitHundredsOfMicrosecond : Q := 1000.

Definition runMicrosecond (g : NodeGenerator) : Q :=
  (unitHundredsOfMicrosecond * cpuPercentage g)%Q.

Definition sleepMicrosecond (g : NodeGenerator) : Q :=
  (unitHundredsOfMicrosecond * 100 - runMicrosecond g)%Q.

(** [time.Duration(runMicrosecond) * time.Microsecond] *)
Definition runDuration (g : NodeGenerator) : Z :=
  Go.int_mul (Go.int_of_float64 (runMicrosecond g)) Go.Microsecond.

(** [time.Duration(sleepMicrosecond) * time.Microsecond] *)
Definition sleepDuration (g : NodeGenerator) : Z :=
  Go.int_mul (Go.int_of_float64 (sleepMicrosecond g)) Go.Microsecond.

(** One turn of a worker's endless loop: spin until more than the
    given duration has passed, then [time.Sleep]. *)
Inductive WorkerStep :=
| BusyWait (d : Z)
| Sleep (d : Z).

Definition workerCycle (g : NodeGenerator) : list WorkerStep :=
  [BusyWait (runDuration g); Sleep (sleepDuration g)].

(** *** Starting and stopping *)

(** The goroutines that end with [<-g.finished]. *)
Inductive Goroutine :=
| MemoryLoop (delta : varianceFunc)
| CPULoop (workers : nat) (cycle : list WorkerStep).

Definition generateVaryingMemory (g : NodeGenerator) : list Goroutine :=
  let delta := getVarianceFuncByName g in
  [MemoryLoop delta].

Definition generateCPU (g : NodeGenerator) : list Goroutine :=
  if Qeq_bool (cpuCoresCount g) 0 then []
  else [CPULoop (Z.to_nat (Go.int_of_float64 (cpuCoresCount g)))
                (workerCycle g)].

(** The statements of the closure returned by [Generate]. *)
Inductive HandleOp :=
| SendFinished      (* g.finished <- struct{}{} *)
| ClearRunning.     (* g.running = false *)

Definition Finished := list HandleOp.

Definition Generate (g : NodeGenerator)
    : NodeGenerator * list Goroutine * Finished :=
  let g1 := set_finished g (Some (Chan.make 2)) in
  let g2 := set_running g1 true in
  let mem := generateVaryingMemory g2 in
  let cpu := generateCPU g2 in
  (g2, mem ++ cpu, [SendFinished; SendFinished; ClearRunning]).

(** One statement of the closure.  [None]: the caller is blocked (a
    send on a full channel, or on the nil channel). *)
Definition runHandleOp (g : NodeGenerator) (op : HandleOp)
    : option NodeGenerator :=
  match op with
  | SendFinished =>
      c <- finished g ;;
      c' <- Chan.send c ;;
      Some (set_finished g (Some c'))
  | ClearRunning => Some (set_running g false)
  end.

(** The number of stop signals a closure sends. *)
Definition signals (h : Finished) : nat :=
  List.length (List.filter
                 (fun op => match op with
                            | SendFinished => true
                            | ClearRunning => false
                            end) h).

(** Interleavings of the closure with the loops.  [LoopRecv] is one
    loop reaching its [<-g.finished]; [HandleStep] lets the caller
    execute its next statement. *)
Inductive Ev := LoopRecv | HandleStep.

Inductive Outcome :=
| Blocked
| Ran (g : NodeGenerator) (rest : Finished).

Fixpoint runSchedule (g : NodeGenerator) (h : Finished)
    (sched : list Ev) : Outcome :=
  match sched with
  | [] => Ran g h
  | LoopRecv :: sched' =>
      runSchedule
        (set_finished g (option_map Chan.recv (finished g))) h sched'
  | HandleStep :: sched' =>
      match h with
      | [] => runSchedule g [] sched'
      | op :: h' =>
          match runHandleOp g op with
          | None => Blocked
          | Some g' => runSchedule g' h' sched'
          end
      end
  end.

End Math.

End Load.

(* ------------------------------------------------------------------ *)
(** ** Package [load]: the earlier node generator ([load/node_generator.go])

    Here a variance function returns the next allocation size itself, and
    the sine model advances the tick as a side effect. *)

Module LegacyLoad.

Definition TICK_INTERVAL : Z := 500 * Go.Millisecond.

Record NodeGenerator := mkGen {
  cpuCoresCount : Q;
  cpuPercentage : Q;
  memoryMBytes : Z;
  memoryVariance : Z;
  memoryVarianceFun : string;
  memoryVariancePeriod : Z;
  running : bool;
  currentMemory : Z;
  currentTick : Z;
  finished : option Chan.t
}.

Definition NewNodeGenerator (cores percentage : Q)
    (memoryMBytes memoryVariance : Z) (memoryVarianceFun : string)
    (memoryVariancePeriod : Z) : NodeGenerator :=
  mkGen cores percentage memoryMBytes memoryVariance memoryVarianceFun
        memoryVariancePeriod false
        (Go.int_mul memoryMBytes Go.pow_2_20) 0 None.

Definition set_currentTick (g : NodeGenerator) (t : Z) :=
  mkGen (cpuCoresCount g) (cpuPercentage g) (memoryMBytes g)
        (memoryVariance g) (memoryVarianceFun g) (memoryVariancePeriod g)
        (running g) (currentMemory g) t (finished g).

Definition set_currentMemory (g : NodeGenerator) (m : Z) :=
  mkGen (cpuCoresCount g) (cpuPercentage g) (memoryMBytes g)
        (memoryVariance g) (memoryVarianceFun g) (memoryVariancePeriod g)
        (running g) m (currentTick g) (finished g).

(** A variance function gets the generator and one [rand.Float64()];
    it returns the generator as it leaves it and the new size. *)
Definition varianceFunc :=
  NodeGenerator -> Q -> option (NodeGenerator * Z).

Definition varianceLinear : varianceFunc := fun g _ =>
  Some (g, currentMemory g).

Definition varianceRandom : varianceFunc := fun g u =>
  if 0 <? memoryVariance g then
    let fMemoryMBytes := Go.float64_of_int (memoryMBytes g) in
    let fMemoryBytes := (fMemoryMBytes * inject_Z Go.pow_2_20)%Q in
    let rPct := (u * 2 - 1)%Q in
    let varyByPct :=
      (Go.float64_of_int (memoryVariance g) * rPct / 100)%Q in
    let delta := (fMemoryBytes * varyByPct)%Q in
    Some (g, Go.int_of_float64 (fMemoryBytes + delta)%Q)
  else Some (g, currentMemory g).

(** The sine of the source is computed for the log only; what remains
    is the integer division inside its argument, which panics for a
    period of 0, and the tick update. *)
Definition varianceSineWave : varianceFunc := fun g _ =>
  if 0 <? memoryVariance g then
    let varianceDuration :=
      Go.int_mul (memoryVariancePeriod g) Go.Second in
    let ticksPerPeriod := Go.wrap64 (varianceDuration ÷ TICK_INTERVAL) in
    _ <- Go.int_quo (currentTick g) (memoryVariancePeriod g) ;;
    let g' := if Go.int_add (currentTick g) 1 <? ticksPerPeriod
              then set_currentTick g (Go.int_add (currentTick g) 1)
              else set_currentTick g 0 in
    Some (g', currentMemory g')
  else Some (g, currentMemory g).

Definition getVarianceFuncByName (varianceFunName : string)
    : varianceFunc :=
  if String.eqb varianceFunName "linear" then varianceLinear
  else if String.eqb varianceFunName "random" then varianceRandom
  else if String.eqb varianceFunName "sine" then varianceSineWave
  else varianceLinear.

(** The CPU loop is the same text as in the later generator. *)
Definition unitHundredsOfMicrosecond : Q := 1000.

Definition runMicrosecond (g : NodeGenerator) : Q :=
  (unitHundredsOfMicrosecond * cpuPercentage g)%Q.

Definition sleepMicrosecond (g : NodeGenerator) : Q :=
  (unitHundredsOfMicrosecond * 100 - runMicrosecond g)%Q.

Definition runDuration (g : NodeGenerator) : Z :=
  Go.int_mul (Go.int_of_float64 (runMicrosecond g)) Go.Microsecond.

Definition sleepDuration (g : NodeGenerator) : Z :=
  Go.int_mul (Go.int_of_float64 (sleepMicrosecond g)) Go.Microsecond.

End LegacyLoad.

(* ------------------------------------------------------------------ *)
(** ** Package [handlers]: [FakeServer.Handle]

    The collaborators of the handler (error injector, worker pool,
    duration distribution, clock) are outside this development.  What
    they returned during one request is gathered in [Observed]; what the
    handler asked of them is the trace of [Event]s. *)

Module Handlers.

Record FakeServer := mkServer {
  name : string;
  message : string;
  upstreamURIs : list string;
  workerCount : Z
}.

Record Response := mkResponse {
  Name : string;
  Type_ : string;
  Code : Z;
  Error : string;
  UpstreamCalls : list (string * string);
  StartTime : option Z;
  EndTime : option Z;
  Duration : option Z;
  Body : option string
}.

(** A gRPC status: code, message, and the response attached as detail. *)
Record Status := mkStatus {
  status_code : Z;
  status_message : string;
  status_details : Response
}.

Definition codes_Internal : Z := 13.

Record Observed := mkObserved {
  ts : Z;                               (* time.Now() on entry *)
  injected : option (Z * string);       (* errorInjector.Do() *)
  poolError : option string;            (* wp.Do(f.upstreamURIs) *)
  poolResponses : list (string * string);  (* wp.Responses() *)
  d : Z;                                (* f.duration.Calculate() *)
  et : Z;                               (* time.Since(ts) after fan-out *)
  te : Z                                (* time.Now() after the sleep *)
}.

Inductive Event :=
| EvGenerate                       (* f.loadGenerator.Generate() *)
| EvInject                         (* f.errorInjector.Do() *)
| EvFanOut (workers : Z) (uris : list string)   (* wp.Do *)
| EvCalculate                      (* f.duration.Calculate() *)
| EvSetError (msg : string)        (* hq.SetError *)
| EvSetMetadata (v : string)       (* hq.SetMetadata("response", v) *)
| EvSleepService (rd : Z)          (* f.log.SleepService(hq.Span, rd) *)
| EvSleep (rd : Z)                 (* time.Sleep(rd) *)
| EvSleepFinished                  (* lp.Finished() *)
| EvRequestFinished                (* deferred hq.Finished() *)
| EvStopLoad.                      (* deferred finished() *)

(** The deferred calls run last, latest first. *)
Definition deferred : list Event := [EvRequestFinished; EvStopLoad].

(** The durations handed to [time.Sleep] in a trace. *)
Fixpoint sleeps (tr : list Event) : list Z :=
  match tr with
  | [] => []
  | EvSleep rd :: tr' => rd :: sleeps tr'
  | _ :: tr' => sleeps tr'
  end.

(** [codes.Code(c)]: conversion to an unsigned 32-bit code. *)
Definition codes_Code (c : Z) : Z := c mod 2 ^ 32.

(** [s.Err()] after [status.New] and [WithDetails]: no error comes out of
    a status whose code is OK (0). *)
Definition status_Err (code : Z) (msg : string) (detail : Response)
    : option Status :=
  if codes_Code code =? 0 then None
  else Some (mkStatus (codes_Code code) msg detail).

Definition quote : string := String (ascii_of_nat 34) EmptyString.

Definition Handle (f : FakeServer) (o : Observed)
    : list Event * (option Response * option Status) :=
  let resp0 := mkResponse (name f) "gRPC" 0 "" [] None None None None in
  match injected o with
  | Some (code, msg) =>
      let resp := mkResponse (Name resp0) (Type_ resp0) code msg
                    [] None None None None in
      ([EvGenerate; EvInject; EvSetError msg;
        EvSetMetadata (Go.Itoa code)] ++ deferred,
       (None, status_Err code msg resp))
  | None =>
      let fanout :=
        if (0 <? List.length (upstreamURIs f))%nat
        then [EvFanOut (workerCount f) (upstreamURIs f)] else [] in
      let upstreamError :=
        if (0 <? List.length (upstreamURIs f))%nat
        then poolError o else None in
      let calls :=
        if (0 <? List.length (upstreamURIs f))%nat
        then poolResponses o else [] in
      let rd := Go.int_sub (d o) (et o) in
      match upstreamError with
      | Some msg =>
          let resp := mkResponse (Name resp0) (Type_ resp0) codes_Internal
                        msg calls None None None None in
          ([EvGenerate; EvInject] ++ fanout ++
           [EvCalculate; EvSetMetadata (Go.Itoa codes_Internal);
            EvSetError msg] ++ deferred,
           (None, status_Err codes_Internal msg resp))
      | None =>
          let sleep := if 0 <? rd then [EvSleep rd] else [] in
          let body := if String.prefix "{" (message f)
                      then message f
                      else String.append quote
                             (String.append (message f) quote) in
          let resp := mkResponse (Name resp0) (Type_ resp0) 0 "" calls
                        (Some (ts o)) (Some (te o))
                        (Some (Go.time_Sub (te o) (ts o))) (Some body) in
          ([EvGenerate; EvInject] ++ fanout ++
           [EvCalculate; EvSleepService rd] ++ sleep ++
           [EvSleepFinished; EvSetMetadata "0"] ++ deferred,
           (Some resp, None))
      end
  end.

End Handlers.

(* ------------------------------------------------------------------ *)
(** ** Package [load]: the display helpers of the node generator *)

Module LoadView.

(** [gcd] returns the greatest common divisor via the Euclidean
    algorithm: [for b != 0 { t := b; b = a % b; a = t }; return a]. *)
Equations gcd (a b : Z) : Z by wf (Z.abs_nat b) lt :=
  gcd a b with Z.eq_dec b 0 => {
    | left _ := a ;
    | right _ := gcd b (Z.rem a b) }.
Next Obligation.
  pose proof (Z.rem_bound_abs a b ltac:(assumption)). lia.
Qed.

(** [reduce] fraction parts for prettiness. *)
Definition reduce (num denom : Z) : option (Z * Z) :=
  if num =? 0 then Some (num, denom)
  else
    let g := gcd num denom in
    if g =? 1 then Some (num, denom)
    else
      n <- Go.int_quo num g ;;
      d <- Go.int_quo denom g ;;
      Some (n, d).

(** The two bytes of the letter pi in UTF-8. *)
Definition pi_str : string :=
  String (ascii_of_nat 207) (String (ascii_of_nat 128) EmptyString).

(** [radString] makes a pretty fractional view of the radius for
    output. *)
Definition radString (g : Load.NodeGenerator) (shouldReduce : bool)
    : option string :=
  let s := Load.state g in
  nd <- (if shouldReduce
         then reduce (Go.int_mul (Load.currentTick s) 2)
                     (Load.ticksPerPeriod s)
         else Some (Go.int_mul (Load.currentTick s) 2,
                    Load.ticksPerPeriod s)) ;;
  let num := fst nd in
  let denom := snd nd in
  if num =? 0 then Some "0"%string
  else if denom =? 1 then Some pi_str
  else if num =? 1
       then Some (String.append pi_str
                    (String.append "/" (Go.Itoa denom)))
       else Some (String.append (Go.Itoa num)
                    (String.append pi_str
                       (String.append "/" (Go.Itoa denom)))).

(** [xAsFrac] and [linearXAsFrac] *)
Definition xAsFrac (g : Load.NodeGenerator) : string :=
  String.append (Go.Itoa (Load.currentTick (Load.state g)))
    (String.append "/" (Go.Itoa (Load.ticksPerPeriod (Load.state g)))).

Definition linearXAsFrac (g : Load.NodeGenerator) : string :=
  String.append (Go.Itoa (Load.currentTick (Load.state g)))
    (String.append "/"
       (Go.Itoa (Go.int_sub (Load.ticksPerPeriod (Load.state g)) 1))).


End LoadView.

(* ------------------------------------------------------------------ *)
(** ** The memory loop of the earlier generator *)

Module LegacyLoop.

(** The body of [for g.running { ... }] in [generateVaryingMemory]: the
    variance function yields the new size, the allocation is made, and
    the size is kept in currentMemory.  [u] is the [rand.Float64()] the
    random model consumes. *)
Definition memoryIteration (calculateVariance : LegacyLoad.varianceFunc)
    (g : LegacyLoad.NodeGenerator) (u : Q)
    : option (LegacyLoad.NodeGenerator * Z) :=
  r <- calculateVariance g u ;;
  let newMemLen := snd r in
  _ <- Load.make_bytes newMemLen ;;
  Some (LegacyLoad.set_currentMemory (fst r) newMemLen, newMemLen).

Fixpoint memoryIterations (calculateVariance : LegacyLoad.varianceFunc)
    (g : LegacyLoad.NodeGenerator) (draws : list Q)
    : option (LegacyLoad.NodeGenerator * list Z) :=
  match draws with
  | [] => Some (g, [])
  | u :: rest =>
      r <- memoryIteration calculateVariance g u ;;
      r' <- memoryIterations calculateVariance (fst r) rest ;;
      Some (fst r', snd r :: snd r')
  end.

(** The goroutine of [generateVaryingMemory], with the variance function
    looked up by name before it starts. *)
Definition memoryLoop (g : LegacyLoad.NodeGenerator) (draws : list Q)
    : option (LegacyLoad.NodeGenerator * list Z) :=
  memoryIterations
    (LegacyLoad.getVarianceFuncByName (LegacyLoad.memoryVarianceFun g))
    g draws.

End LegacyLoop.

(* ------------------------------------------------------------------ *)
(** ** Package [response]

    The response tree and its append operations.  A [*Response] that is
    nil is [None]; dereferencing it panics.  [UpstreamCalls] is [None]
    for the nil slice. *)

Module ResponsePkg.

Inductive Response := mkResponse {
  Name : string;
  URI : string;
  Type_ : string;
  Duration : string;
  Body : string;
  UpstreamCalls : option (list Response)
}.

(** [AppendUpstream] *)
Definition AppendUpstream (r : Response) (resp : option Response)
    : option Response :=
  let calls := match UpstreamCalls r with
               | None => []
               | Some l => l
               end in
  v <- resp ;;
  Some (mkResponse (Name r) (URI r) (Type_ r) (Duration r) (Body r)
          (Some (calls ++ [v]))).

(** [AppendUpstreams] *)
Fixpoint AppendUpstreams (r : Response) (reps : list (option Response))
    : option Response :=
  match reps with
  | [] => Some r
  | u :: rest =>
      r' <- AppendUpstream r u ;;
      AppendUpstreams r' rest
  end.

End ResponsePkg.

(* ------------------------------------------------------------------ *)
(** ** Vocabulary of the statements and sample configurations *)

(** A model name outside the registry. *)
Definition unrecognized (name : string) : Prop :=
  (name <> "linear" /\ name <> "random" /\ name <> "sine")%string.

(** The largest value of an [int], as a float. *)
Definition maxInt : Q := inject_Z (2 ^ 63 - 1).

(** The phase invariant. *)
Definition phase_ok (g : Load.NodeGenerator) : Prop :=
  0 <= Load.currentTick (Load.state g) < Load.ticksPerPeriod (Load.state g).

(** The generator as a loop sees it at the start of an iteration, with
    the clock reading stored. *)
Definition at_tick (g : Load.NodeGenerator) (i : Load.TickInput)
    : Load.NodeGenerator :=
  Load.set_state g
    (Load.mkState
       (Load.baselineBytes (Load.state g))
       (Load.maxVarianceBytes (Load.state g))
       (Load.currentBytes (Load.state g))
       (Load.currentTick (Load.state g))
       (Load.startTime (Load.state g))
       (Load.now i)
       (Load.ticksPerPeriod (Load.state g))).

(** The unit interval of the CPU duty cycle: 100 ms, in nanoseconds. *)
Definition unitInterval : Z := 100 * Go.Millisecond.

(** How many statements of the stop handle a schedule lets run, and how
    many loops reach their receive in it. *)
Definition handleSteps (sched : list Load.Ev) : nat :=
  List.length (List.filter
                 (fun ev => match ev with
                            | Load.HandleStep => true
                            | Load.LoopRecv => false
                            end) sched).

Definition loopRecvs (sched : list Load.Ev) : nat :=
  List.length (List.filter
                 (fun ev => match ev with
                            | Load.LoopRecv => true
                            | Load.HandleStep => false
                            end) sched).

(** The generator at another tick of its period. *)
Definition with_tick (g : Load.NodeGenerator) (t : Z) : Load.NodeGenerator :=
  Load.set_state g
    (Load.mkState
       (Load.baselineBytes (Load.state g))
       (Load.maxVarianceBytes (Load.state g))
       (Load.currentBytes (Load.state g))
       t
       (Load.startTime (Load.state g))
       (Load.lastTickTime (Load.state g))
       (Load.ticksPerPeriod (Load.state g))).

(** A value cut off at -1 and 1. *)
Definition clamp1 (q : Q) : Q :=
  if Qle_bool q (- (1)) then - (1)
  else if Qle_bool 1 q then 1
  else q.

Module Sample.

(** Stand-ins for [math.Pi] and [math.Sin] where a closed term is
    needed and the sine model is not the one selected. *)
Definition Pi : Q := 3.
Definition Sin : Q -> Q := fun _ => 0%Q.

Definition input : Load.TickInput := Load.mkTick 0 (Load.mkDraw 0 0).

(** 100 MiB, 50% variance, linear model over 5 seconds, no CPU load. *)
Definition linear100 : Load.NodeGenerator :=
  Load.NewNodeGenerator 0 0 100 50 "linear" 5 0 0.

(** 1 MiB, 1% variance, linear model over 1 second. *)
Definition linear1 : Load.NodeGenerator :=
  Load.NewNodeGenerator 0 0 1 1 "linear" 1 0 0.

(** 64 MiB, 10% variance, random model. *)
Definition random64 : Load.NodeGenerator :=
  Load.NewNodeGenerator 0 0 64 10 "random" 1 0 0.

(** A variance period of 0 seconds. *)
Definition period0 : Load.NodeGenerator :=
  Load.NewNodeGenerator 0 0 100 10 "sine" 0 0 0.

(** No CPU cores. *)
Definition nocpu : Load.NodeGenerator :=
  Load.NewNodeGenerator 0 50 100 0 "" 1 0 0.

(** Two cores at 50 percent. *)
Definition twocores : Load.NodeGenerator :=
  Load.NewNodeGenerator 2 50 100 0 "" 1 0 0.

(** One core with the CPU setting 1. *)
Definition cpu1 : Load.NodeGenerator :=
  Load.NewNodeGenerator 1 1 0 0 "" 1 0 0.

(** One core with the CPU setting 1/2048, a run time of less than half
    a microsecond. *)
Definition cpu_small : Load.NodeGenerator :=
  Load.NewNodeGenerator 1 (1 # 2048) 0 0 "" 1 0 0.

(** Half a core. *)
Definition halfcore : Load.NodeGenerator :=
  Load.NewNodeGenerator (1 # 2) 50 0 0 "" 1 0 0.

(** A variance period of 0 seconds and no variance: 100 MiB, the zero
    model. *)
Definition period0_plain : Load.NodeGenerator :=
  Load.NewNodeGenerator 0 0 100 0 "" 0 0 0.

(** A rational stand-in for [math.Pi] and, for [math.Sin], the Taylor
    polynomial of degree 5 cut off at -1 and 1. *)
Definition Pi355 : Q := 355 # 113.
Definition SinTaylor : Q -> Q :=
  fun r => clamp1 (r - r * r * r / 6 + r * r * r * r * r / 120).

(** 100 MiB, 10% variance, sine model over 2 seconds, at the quarter
    period (tick 1 of 4). *)
Definition sine_quarter : Load.NodeGenerator :=
  with_tick (Load.NewNodeGenerator 0 0 100 10 "sine" 2 0 0) 1.

(** The 100 MiB linear generator one tick later (tick 1 of 10). *)
Definition linear100_tick1 : Load.NodeGenerator :=
  with_tick linear100 1.

End Sample.

(* ------------------------------------------------------------------ *)
(** * Properties *)

(** ** Integers and truncation *)

Lemma wrap64_fits (z : Z) : Go.fits_int z -> Go.wrap64 z = z.
Proof.
  unfold Go.fits_int, Go.wrap64. intros H.
  rewrite Z.mod_small; lia.
Qed.

Lemma int_of_float64_inject (z : Z) : Go.int_of_float64 (inject_Z z) = z.
Proof. unfold Go.int_of_float64. simpl. apply Z.quot_1_r. Qed.

(** Truncation is the floor of a non-negative number and the ceiling of a
    negative one. *)
Lemma int_of_float64_floor (q : Q) :
  (0 <= q)%Q -> Go.int_of_float64 q = Qfloor q.
Proof.
  destruct q as [n d]. unfold Qle, Go.int_of_float64, Qfloor. simpl.
  intros H. apply Z.quot_div_nonneg; lia.
Qed.

Lemma int_of_float64_ceiling (q : Q) :
  (q <= 0)%Q -> Go.int_of_float64 q = Qceiling q.
Proof.
  destruct q as [n d]. unfold Qle, Go.int_of_float64, Qceiling, Qfloor.
  simpl. intros H.
  replace n with (- - n) at 1 by lia.
  rewrite Z.quot_opp_l by lia.
  rewrite Z.quot_div_nonneg by lia. reflexivity.
Qed.

Lemma int_of_float64_comp (p q : Q) :
  (p == q)%Q -> Go.int_of_float64 p = Go.int_of_float64 q.
Proof.
  intros E. destruct (Qlt_le_dec p 0) as [Hn | Hp].
  - rewrite !int_of_float64_ceiling.
    + now rewrite E.
    + rewrite <- E. now apply Qlt_le_weak.
    + now apply Qlt_le_weak.
  - rewrite !int_of_float64_floor.
    + now rewrite E.
    + now rewrite <- E.
    + assumption.
Qed.

Lemma int_of_float64_opp (q : Q) :
  Go.int_of_float64 (- q) = - Go.int_of_float64 q.
Proof.
  destruct q as [n d]. unfold Go.int_of_float64. simpl.
  apply Z.quot_opp_l. lia.
Qed.

Lemma int_of_float64_nonneg (q : Q) :
  (0 <= q)%Q ->
  (0 <= inject_Z (Go.int_of_float64 q) <= q)%Q.
Proof.
  intros H. rewrite int_of_float64_floor by assumption. split.
  - change (inject_Z (Qfloor 0) <= inject_Z (Qfloor q))%Q.
    rewrite <- Zle_Qle. now apply Qfloor_resp_le.
  - apply Qfloor_le.
Qed.

Lemma int_of_float64_nonpos (q : Q) :
  (q <= 0)%Q ->
  (q <= inject_Z (Go.int_of_float64 q) <= 0)%Q.
Proof.
  intros H. rewrite int_of_float64_ceiling by assumption. split.
  - apply Qle_ceiling.
  - change (inject_Z (Qceiling q) <= inject_Z (Qceiling 0))%Q.
    rewrite <- Zle_Qle. now apply Qceiling_resp_le.
Qed.

(** Truncation never leaves a symmetric interval. *)
Lemma int_of_float64_within (q m : Q) :
  (- m <= q <= m)%Q ->
  (- m <= inject_Z (Go.int_of_float64 q) <= m)%Q.
Proof.
  intros [Hl Hu]. destruct (Qlt_le_dec q 0) as [Hn | Hp].
  - destruct (int_of_float64_nonpos q (Qlt_le_weak _ _ Hn)). lra.
  - destruct (int_of_float64_nonneg q Hp). lra.
Qed.

Lemma int_of_float64_strictly_within (q m : Q) :
  (- m < q < m)%Q ->
  (- m < inject_Z (Go.int_of_float64 q) < m)%Q.
Proof.
  intros [Hl Hu]. destruct (Qlt_le_dec q 0) as [Hn | Hp].
  - destruct (int_of_float64_nonpos q (Qlt_le_weak _ _ Hn)). lra.
  - destruct (int_of_float64_nonneg q Hp). lra.
Qed.

(** ** Variance models *)

(** C3.  Whatever the phase state [g'] and the random draw, the variance
    function selected for a configuration [g] whose variance percentage
    is 0, or whose model name is none of "linear", "random", "sine" (the
    empty name included), returns the delta 0.  In the earlier generator,
    where the selected function returns the next allocation size instead
    of a delta, the size returned under the same condition is the current
    one and the generator is left as it was: a change of 0 as well. *)
Theorem getVarianceFuncByName_zero
    (math_Pi : Q) (math_Sin : Q -> Q)
    (g g' : Load.NodeGenerator) (dr : Load.Draw)
    (lg : LegacyLoad.NodeGenerator) (u : Q) :
  (Load.memoryVariance g = 0 \/ unrecognized (Load.memoryVarianceFun g)) ->
  (LegacyLoad.memoryVariance lg = 0
   \/ unrecognized (LegacyLoad.memoryVarianceFun lg)) ->
  Load.getVarianceFuncByName math_Pi math_Sin g g' dr = 0
  /\ LegacyLoad.getVarianceFuncByName (LegacyLoad.memoryVarianceFun lg) lg u
     = Some (lg, LegacyLoad.currentMemory lg).
Proof.
  intros H HL. split.
  - unfold Load.getVarianceFuncByName.
    destruct H as [H0 | Hl].
    + rewrite H0. reflexivity.
    + destruct (Load.memoryVariance g =? 0); [reflexivity|].
      destruct Hl as (Hl & Hr & Hs).
      apply String.eqb_neq in Hl, Hr, Hs. rewrite Hl, Hr, Hs. reflexivity.
  - unfold LegacyLoad.getVarianceFuncByName.
    destruct HL as [H0 | (Hl & Hr & Hs)].
    + destruct (String.eqb (LegacyLoad.memoryVarianceFun lg) "linear");
        [reflexivity|].
      destruct (String.eqb (LegacyLoad.memoryVarianceFun lg) "random").
      { unfold LegacyLoad.varianceRandom. rewrite H0. reflexivity. }
      destruct (String.eqb (LegacyLoad.memoryVarianceFun lg) "sine").
      { unfold LegacyLoad.varianceSineWave. rewrite H0. reflexivity. }
      reflexivity.
    + apply String.eqb_neq in Hl, Hr, Hs. rewrite Hl, Hr, Hs. reflexivity.
Qed.

(** The phase fraction of the linear model lies in [0,1]. *)
Lemma linearX_unit (g : Load.NodeGenerator) :
  2 <= Load.ticksPerPeriod (Load.state g) < 2 ^ 63 ->
  0 <= Load.currentTick (Load.state g)
    < Load.ticksPerPeriod (Load.state g) ->
  (0 <= Load.linearX g <= 1)%Q.
Proof.
  intros HT Ht. unfold Load.linearX, Go.float64_of_int, Go.int_sub.
  rewrite wrap64_fits by (unfold Go.fits_int; lia).
  assert (Hpos : (0 < inject_Z (Load.ticksPerPeriod (Load.state g) - 1))%Q).
  { change 0%Q with (inject_Z 0). rewrite <- Zlt_Qlt. lia. }
  split.
  - apply Qle_shift_div_l; [assumption|].
    rewrite Qmult_0_l. change 0%Q with (inject_Z 0).
    rewrite <- Zle_Qle. lia.
  - apply Qle_shift_div_r; [assumption|].
    rewrite Qmult_1_l. rewrite <- Zle_Qle. lia.
Qed.

Lemma linearX_first (g : Load.NodeGenerator) :
  Load.currentTick (Load.state g) = 0 -> (Load.linearX g == 0)%Q.
Proof.
  intros E. unfold Load.linearX, Go.float64_of_int. rewrite E.
  unfold Qdiv. apply Qmult_0_l.
Qed.

Lemma linearX_last (g : Load.NodeGenerator) :
  2 <= Load.ticksPerPeriod (Load.state g) < 2 ^ 63 ->
  Load.currentTick (Load.state g) = Load.ticksPerPeriod (Load.state g) - 1 ->
  (Load.linearX g == 1)%Q.
Proof.
  intros HT E. unfold Load.linearX, Go.float64_of_int, Go.int_sub.
  rewrite wrap64_fits by (unfold Go.fits_int; lia).
  rewrite E. apply Qmult_inv_r.
  intros H0. change 0%Q with (inject_Z 0) in H0.
  apply (proj1 (inject_Z_injective _ _)) in H0. lia.
Qed.

(** C4, as the code has it.  With at least two ticks per period and a
    non-negative maximum variance within the range of [int], the delta of
    the linear model lies in [-max, +max] at every tick of the period; at
    tick 0 it is -max with its fraction of a byte dropped, at the last
    tick it is +max with its fraction dropped; when max is a whole number
    of bytes these are exactly -max and +max. *)
Theorem varianceLinear_range (g : Load.NodeGenerator) (dr : Load.Draw) :
  2 <= Load.ticksPerPeriod (Load.state g) < 2 ^ 63 ->
  0 <= Load.currentTick (Load.state g)
    < Load.ticksPerPeriod (Load.state g) ->
  (0 <= Load.maxVarianceBytes (Load.state g) <= maxInt)%Q ->
  (- Load.maxVarianceBytes (Load.state g)
     <= inject_Z (Load.varianceLinear g dr)
     <= Load.maxVarianceBytes (Load.state g))%Q
  /\ (Load.currentTick (Load.state g) = 0 ->
      Load.varianceLinear g dr
      = - Go.int_of_float64 (Load.maxVarianceBytes (Load.state g)))
  /\ (Load.currentTick (Load.state g)
        = Load.ticksPerPeriod (Load.state g) - 1 ->
      Load.varianceLinear g dr
      = Go.int_of_float64 (Load.maxVarianceBytes (Load.state g)))
  /\ (forall m : Z,
        (Load.maxVarianceBytes (Load.state g) == inject_Z m)%Q ->
        (Load.currentTick (Load.state g) = 0 ->
         Load.varianceLinear g dr = - m)
        /\ (Load.currentTick (Load.state g)
              = Load.ticksPerPeriod (Load.state g) - 1 ->
            Load.varianceLinear g dr = m)).
Proof.
  intros HT Ht [HM _].
  pose proof (linearX_unit g HT Ht) as [Hx0 Hx1].
  assert (First : Load.currentTick (Load.state g) = 0 ->
                  Load.varianceLinear g dr
                  = - Go.int_of_float64 (Load.maxVarianceBytes (Load.state g))).
  { intros E. unfold Load.varianceLinear.
    rewrite <- int_of_float64_opp. apply int_of_float64_comp.
    rewrite (linearX_first g E). ring. }
  assert (Last : Load.currentTick (Load.state g)
                   = Load.ticksPerPeriod (Load.state g) - 1 ->
                 Load.varianceLinear g dr
                 = Go.int_of_float64 (Load.maxVarianceBytes (Load.state g))).
  { intros E. unfold Load.varianceLinear. apply int_of_float64_comp.
    rewrite (linearX_last g HT E). ring. }
  repeat split.
  - apply int_of_float64_within.
    set (M := Load.maxVarianceBytes (Load.state g)) in *.
    set (X := Load.linearX g) in *. nra.
  - apply int_of_float64_within.
    set (M := Load.maxVarianceBytes (Load.state g)) in *.
    set (X := Load.linearX g) in *. nra.
  - exact First.
  - exact Last.
  - intros E. rewrite (First E), (int_of_float64_comp _ _ H).
    now rewrite int_of_float64_inject.
  - intros E. rewrite (Last E), (int_of_float64_comp _ _ H).
    now rewrite int_of_float64_inject.
Qed.

(** The signed fraction drawn by the random model is strictly between
    -1 and 1. *)
Lemma random_pct_open (dr : Load.Draw) :
  Load.Intn2 dr = 0 \/ Load.Intn2 dr = 1 ->
  (0 <= Load.Float64 dr < 1)%Q ->
  (- (1) < Go.Copysign (Load.Float64 dr)
             (Go.float64_of_int (Go.int_mul (Load.Intn2 dr) (-1))) < 1)%Q.
Proof.
  intros Hc [Hu0 Hu1].
  assert (Ha : (Qabs (Load.Float64 dr) == Load.Float64 dr)%Q)
    by now apply Qabs_pos.
  destruct Hc as [-> | ->]; cbn; rewrite Ha; lra.
Qed.

(** C9.  Whatever the coin and the uniform draw in [0,1), the delta of
    the random model is strictly above -max and strictly below +max: it
    is never less than or equal to -max and never reaches +max.  The
    maximum variance is positive, as it must be for the interval from
    -max to +max to have a member, and within the range of [int]. *)
Theorem varianceRandom_range (g : Load.NodeGenerator) (dr : Load.Draw) :
  Load.Intn2 dr = 0 \/ Load.Intn2 dr = 1 ->
  (0 <= Load.Float64 dr < 1)%Q ->
  (0 < Load.maxVarianceBytes (Load.state g) <= maxInt)%Q ->
  (- Load.maxVarianceBytes (Load.state g)
     < inject_Z (Load.varianceRandom g dr)
     < Load.maxVarianceBytes (Load.state g))%Q.
Proof.
  intros Hc Hu [HM _].
  pose proof (random_pct_open dr Hc Hu) as [Hl Hr].
  unfold Load.varianceRandom.
  apply int_of_float64_strictly_within.
  set (M := Load.maxVarianceBytes (Load.state g)) in *.
  set (P := Go.Copysign _ _) in *.
  split; nra.
Qed.

(** ** Phase state and the memory loop *)

Lemma NewNodeGenerator_ticksPerPeriod
    (cores pct : Q) (mem var : Z) (fn : string) (period now0 now1 : Z) :
  1 <= period <= 9223372036 ->
  Load.ticksPerPeriod
    (Load.state (Load.NewNodeGenerator cores pct mem var fn period now0 now1))
  = 2 * period.
Proof.
  intros H. cbn [Load.NewNodeGenerator Load.state Load.ticksPerPeriod].
  unfold Go.int_mul, Go.Second, Load.TICK_INTERVAL, Go.Millisecond.
  rewrite (wrap64_fits (period * 1000000000))
    by (unfold Go.fits_int; lia).
  replace (period * 1000000000) with (2 * period * (500 * 1000000)) by lia.
  rewrite Z.quot_mul by lia.
  apply wrap64_fits. unfold Go.fits_int. lia.
Qed.

(** [tick] does not panic inside the invariant and moves to the next
    tick of the period. *)
Lemma tick_advances (g : Load.NodeGenerator) :
  Load.ticksPerPeriod (Load.state g) < 2 ^ 63 ->
  0 <= Load.currentTick (Load.state g)
    < Load.ticksPerPeriod (Load.state g) ->
  exists g',
    Load.tick g = Some g'
    /\ Load.currentTick (Load.state g')
       = (Load.currentTick (Load.state g) + 1)
           mod Load.ticksPerPeriod (Load.state g)
    /\ Load.ticksPerPeriod (Load.state g')
       = Load.ticksPerPeriod (Load.state g)
    /\ Load.currentBytes (Load.state g') = Load.currentBytes (Load.state g).
Proof.
  intros HT Ht. unfold Load.tick, Go.int_rem, Go.int_add.
  rewrite wrap64_fits by (unfold Go.fits_int; lia).
  destruct (Z.eqb_spec (Load.ticksPerPeriod (Load.state g)) 0) as [E | _];
    [lia|].
  eexists. split; [reflexivity|]. cbn.
  repeat split. apply Z.rem_mod_nonneg; lia.
Qed.

(** One iteration requests the current size plus the delta, keeps that
    sum as the current size, and advances the tick; it panics exactly
    when the sum is negative. *)
Lemma memoryIteration_spec (delta : Load.varianceFunc)
    (g : Load.NodeGenerator) (i : Load.TickInput) :
  Load.ticksPerPeriod (Load.state g) < 2 ^ 63 ->
  0 <= Load.currentTick (Load.state g)
    < Load.ticksPerPeriod (Load.state g) ->
  (Load.memoryIteration delta g i = None
   /\ Go.int_add (Load.currentBytes (Load.state g))
        (delta (at_tick g i) (Load.draw i)) < 0)
  \/ (exists g',
        Load.memoryIteration delta g i
        = Some (g', Load.currentBytes (Load.state g'))
        /\ 0 <= Load.currentBytes (Load.state g')
        /\ Load.currentBytes (Load.state g')
           = Go.int_add (Load.currentBytes (Load.state g))
               (delta (at_tick g i) (Load.draw i))
        /\ Load.currentTick (Load.state g')
           = (Load.currentTick (Load.state g) + 1)
               mod Load.ticksPerPeriod (Load.state g)
        /\ Load.ticksPerPeriod (Load.state g')
           = Load.ticksPerPeriod (Load.state g)).
Proof.
  intros HT Ht. unfold Load.memoryIteration, Load.make_bytes, at_tick.
  cbn [Load.state Load.set_state Load.currentBytes].
  match goal with |- context [Go.int_add ?a ?b] =>
    set (n := Go.int_add a b) end.
  destruct (Z.ltb_spec n 0) as [Hneg | Hpos].
  - left. split; [reflexivity | assumption].
  - right. cbn [Go.bind].
    match goal with |- context [Load.tick ?h] =>
      destruct (tick_advances h) as (g' & E & Et & ET & Eb) end.
    + exact HT.
    + exact Ht.
    + exists g'. rewrite E. cbn [Go.bind]. cbn in Et, ET, Eb.
      rewrite Eb. repeat split; try assumption.
Qed.

Lemma memoryIterations_phase (delta : Load.varianceFunc)
    (inputs : list Load.TickInput) :
  forall (g g' : Load.NodeGenerator) (sizes : list Z),
    Load.ticksPerPeriod (Load.state g) < 2 ^ 63 ->
    0 <= Load.currentTick (Load.state g)
      < Load.ticksPerPeriod (Load.state g) ->
    Load.memoryIterations delta g inputs = Some (g', sizes) ->
    Load.ticksPerPeriod (Load.state g') = Load.ticksPerPeriod (Load.state g)
    /\ 0 <= Load.currentTick (Load.state g')
         < Load.ticksPerPeriod (Load.state g)
    /\ Load.currentTick (Load.state g')
       = (Load.currentTick (Load.state g) + Z.of_nat (List.length inputs))
           mod Load.ticksPerPeriod (Load.state g)
    /\ List.length sizes = List.length inputs.
Proof.
  induction inputs as [| i rest IH]; intros g g' sizes HT Ht Hrun.
  - cbn in Hrun. inversion Hrun; subst. cbn.
    rewrite Z.add_0_r, Z.mod_small by lia. repeat split; lia.
  - cbn [Load.memoryIterations] in Hrun.
    destruct (memoryIteration_spec delta g i HT Ht)
      as [[E _] | (g1 & E & _ & _ & Et & ET)];
      rewrite E in Hrun; cbn [Go.bind fst snd] in Hrun; [discriminate|].
    destruct (Load.memoryIterations delta g1 rest) as [[g2 sz] |] eqn:Erest;
      cbn [Go.bind fst snd] in Hrun; [|discriminate].
    inversion Hrun; subst; clear Hrun.
    assert (Ht1 : 0 <= Load.currentTick (Load.state g1)
                    < Load.ticksPerPeriod (Load.state g1)).
    { rewrite Et, ET. apply Z.mod_pos_bound. lia. }
    destruct (IH g1 g' sz ltac:(lia) Ht1 Erest) as (HT' & Hb & Hc & Hlen).
    rewrite ET in *. repeat split; try lia.
    + rewrite Hc, Et. cbn [List.length].
      rewrite Zplus_mod_idemp_l. f_equal. lia.
    + cbn [List.length]. now rewrite Hlen.
Qed.

(** A generator constructed with a variance
    period of 1 to 9223372036 seconds (the periods whose nanosecond count
    fits an [int]) has ticksPerPeriod = 2 * period, hence at least 2, and
    starts at tick 0.  From there the phase invariant
    0 <= currentTick < ticksPerPeriod holds after any number of memory-loop
    iterations, [tick] never panics, and each iteration moves currentTick
    to (currentTick + 1) mod ticksPerPeriod. *)
Theorem NewNodeGenerator_phase
    (cores pct : Q) (mem var : Z) (fn : string) (period now0 now1 : Z)
    (g : Load.NodeGenerator) :
  1 <= period <= 9223372036 ->
  g = Load.NewNodeGenerator cores pct mem var fn period now0 now1 ->
  Load.ticksPerPeriod (Load.state g) = 2 * period
  /\ 2 <= Load.ticksPerPeriod (Load.state g)
  /\ Load.currentTick (Load.state g) = 0
  /\ phase_ok g
  /\ (forall delta start inputs g' sizes,
        Load.memoryLoop delta g start inputs = Some (g', sizes) ->
        phase_ok g'
        /\ Load.ticksPerPeriod (Load.state g')
           = Load.ticksPerPeriod (Load.state g)
        /\ Load.currentTick (Load.state g')
           = Z.of_nat (List.length inputs)
               mod Load.ticksPerPeriod (Load.state g))
  /\ (forall g1,
        Load.ticksPerPeriod (Load.state g1)
        = Load.ticksPerPeriod (Load.state g) ->
        phase_ok g1 ->
        exists g2,
          Load.tick g1 = Some g2
          /\ Load.currentTick (Load.state g2)
             = (Load.currentTick (Load.state g1) + 1)
                 mod Load.ticksPerPeriod (Load.state g)
          /\ phase_ok g2)
  /\ (forall delta g1 i g2 n,
        Load.ticksPerPeriod (Load.state g1)
        = Load.ticksPerPeriod (Load.state g) ->
        phase_ok g1 ->
        Load.memoryIteration delta g1 i = Some (g2, n) ->
        Load.currentTick (Load.state g2)
        = (Load.currentTick (Load.state g1) + 1)
            mod Load.ticksPerPeriod (Load.state g)
        /\ phase_ok g2).
Proof.
  intros Hp ->.
  pose proof (NewNodeGenerator_ticksPerPeriod
                cores pct mem var fn period now0 now1 Hp) as ET.
  set (g := Load.NewNodeGenerator cores pct mem var fn period now0 now1)
    in *.
  assert (E0 : Load.currentTick (Load.state g) = 0) by reflexivity.
  assert (Hok : phase_ok g) by (unfold phase_ok; rewrite E0, ET; lia).
  split; [exact ET|]. split; [lia|]. split; [exact E0|].
  split; [exact Hok|]. split; [|split].
  - intros delta start inputs g' sizes Hrun.
    unfold Load.memoryLoop in Hrun.
    apply memoryIterations_phase in Hrun; cbn [Load.state Load.set_state
      Load.ticksPerPeriod Load.currentTick] in *.
    + destruct Hrun as (HT' & Hb & Hc & _).
      fold g in HT', Hb, Hc.
      change (Load.ticksPerPeriod (Load.state g')
              = Load.ticksPerPeriod (Load.state g)) in HT'.
      change (0 <= Load.currentTick (Load.state g')
                < Load.ticksPerPeriod (Load.state g)) in Hb.
      change (Load.currentTick (Load.state g')
              = (Load.currentTick (Load.state g)
                 + Z.of_nat (List.length inputs))
                  mod Load.ticksPerPeriod (Load.state g)) in Hc.
      unfold phase_ok. rewrite HT'. repeat split; try lia.
      rewrite Hc, E0. reflexivity.
    + change (Load.ticksPerPeriod (Load.state g) < 2 ^ 63). lia.
    + exact Hok.
  - intros g1 ET1 Hok1. unfold phase_ok in Hok1.
    destruct (tick_advances g1) as (g2 & E & Et & ET2 & _);
      [lia | exact Hok1 |].
    exists g2. split; [exact E|]. rewrite <- ET1. split; [exact Et|].
    unfold phase_ok. rewrite Et, ET2. apply Z.mod_pos_bound. lia.
  - intros delta g1 i g2 n ET1 Hok1 Hit. unfold phase_ok in Hok1.
    destruct (memoryIteration_spec delta g1 i)
      as [[E _] | (g' & E & _ & _ & Et & ET2)];
      [lia | exact Hok1 | congruence |].
    rewrite E in Hit. inversion Hit; subst g'.
    rewrite <- ET1. split; [exact Et|].
    unfold phase_ok. rewrite Et, ET2. apply Z.mod_pos_bound. lia.
Qed.

Lemma NewNodeGenerator_phase_witness :
  1 <= 5 <= 9223372036
  /\ Load.ticksPerPeriod (Load.state Sample.linear100) = 2 * 5.
Proof.
  split; [lia|].
  exact (proj1 (NewNodeGenerator_phase 0 0 100 50 "linear" 5 0 0
                  Sample.linear100 ltac:(lia) eq_refl)).
Defined.

(** A generator constructed with a period of 0 seconds has 0 ticks per
    period, which is neither at least 2 nor above currentTick. *)
Lemma ticksPerPeriod_not_at_least_2 :
  ~ (forall g : Load.NodeGenerator,
       (exists cores pct mem var fn period now0 now1,
          g = Load.NewNodeGenerator cores pct mem var fn period now0 now1) ->
       2 <= Load.ticksPerPeriod (Load.state g) /\ phase_ok g).
Proof.
  intros H.
  destruct (H Sample.period0) as [H2 _].
  - exists 0%Q, 0%Q, 100, 10, "sine"%string, 0, 0, 0. reflexivity.
  - vm_compute in H2. apply H2. reflexivity.
Qed.

(** C6 at a concrete configuration: 100 MiB, no variance, a variance
    period of 0 seconds.  The constructor computes 0 ticks per period, so
    currentTick = 0 is not below ticksPerPeriod and the interval
    [0,ticksPerPeriod) of the field's comment is empty.  The first
    iteration of the memory loop requests the baseline, which the
    allocation accepts, and then [tick] panics on the remainder by zero:
    the tick never advances. *)
Theorem period_zero_tick_panics :
  Load.ticksPerPeriod (Load.state Sample.period0_plain) = 0
  /\ Load.currentTick (Load.state Sample.period0_plain) = 0
  /\ ~ phase_ok Sample.period0_plain
  /\ Load.make_bytes
       (Go.int_add (Load.currentBytes (Load.state Sample.period0_plain))
          (Load.getVarianceFuncByName Sample.Pi Sample.Sin
             Sample.period0_plain
             (at_tick Sample.period0_plain Sample.input)
             (Load.draw Sample.input)))
     = Some tt
  /\ Load.tick Sample.period0_plain = None
  /\ Load.memoryLoop
       (Load.getVarianceFuncByName Sample.Pi Sample.Sin
          Sample.period0_plain)
       Sample.period0_plain 0 [Sample.input]
     = None.
Proof.
  split; [reflexivity|]. split; [reflexivity|]. split.
  - unfold phase_ok. vm_compute. intros [_ H]. discriminate H.
  - repeat split; vm_compute; reflexivity.
Qed.

(** ** The allocation target of the memory loop *)

(** C1 at a concrete configuration: 100 MiB baseline, 50% variance,
    linear model, 10 ticks per period.  The first iteration requests
    baseline + delta(0) = 52428800 bytes.  The second requests 11650845
    bytes, which is the previous request plus delta(1), while
    baseline + delta(1) is 64079645.  The third would request the second
    plus delta(2), a negative capacity, and the loop panics. *)
Theorem memoryLoop_accumulates :
  Load.baselineBytes (Load.state Sample.linear100) = 104857600
  /\ option_map snd
       (Load.memoryLoop
          (Load.getVarianceFuncByName Sample.Pi Sample.Sin Sample.linear100)
          Sample.linear100 0 [Sample.input; Sample.input])
     = Some [52428800; 11650845]
  /\ option_map
       (fun r => Load.baselineBytes (Load.state (fst r))
                 + Load.varianceLinear (fst r) (Load.draw Sample.input))
       (Load.memoryLoop
          (Load.getVarianceFuncByName Sample.Pi Sample.Sin Sample.linear100)
          Sample.linear100 0 [Sample.input])
     = Some 64079645
  /\ Load.memoryLoop
       (Load.getVarianceFuncByName Sample.Pi Sample.Sin Sample.linear100)
       Sample.linear100 0 [Sample.input; Sample.input; Sample.input]
     = None.
Proof. vm_compute. repeat split. Qed.

(** The sibling path: the random model of the earlier generator derives
    the size from the configured baseline, whatever the current size. *)
Lemma legacy_varianceRandom_from_baseline
    (g : LegacyLoad.NodeGenerator) (m : Z) (u : Q) :
  0 < LegacyLoad.memoryVariance g ->
  option_map snd
    (LegacyLoad.varianceRandom (LegacyLoad.set_currentMemory g m) u)
  = option_map snd (LegacyLoad.varianceRandom g u).
Proof.
  intros H. apply Z.ltb_lt in H. unfold LegacyLoad.varianceRandom.
  cbn [LegacyLoad.set_currentMemory LegacyLoad.memoryVariance
       LegacyLoad.memoryMBytes].
  rewrite H. reflexivity.
Qed.

(** ** Closed instances *)

(** Decides a closed comparison of rationals or integers. *)
Ltac by_evaluation :=
  repeat split;
  solve [ vm_compute; first [ reflexivity | discriminate
                            | intro; discriminate ]
        | left; vm_compute; reflexivity
        | right; vm_compute; reflexivity ].

Lemma getVarianceFuncByName_zero_witness :
  (Load.memoryVariance Sample.nocpu = 0
   \/ unrecognized (Load.memoryVarianceFun Sample.nocpu))
  /\ Load.getVarianceFuncByName Sample.Pi Sample.Sin Sample.nocpu
       Sample.linear100 (Load.draw Sample.input) = 0.
Proof.
  split; [left; reflexivity|].
  exact (proj1 (getVarianceFuncByName_zero Sample.Pi Sample.Sin
                  Sample.nocpu Sample.linear100 (Load.draw Sample.input)
                  (LegacyLoad.NewNodeGenerator 0 0 100 0 "sine" 1)
                  0%Q (or_introl eq_refl) (or_introl eq_refl))).
Defined.

Lemma varianceLinear_range_witness :
  2 <= Load.ticksPerPeriod (Load.state Sample.linear1) < 2 ^ 63
  /\ Load.varianceLinear Sample.linear1 (Load.draw Sample.input)
     = - Go.int_of_float64
           (Load.maxVarianceBytes (Load.state Sample.linear1)).
Proof.
  split; [by_evaluation|].
  refine (proj1 (proj2 (varianceLinear_range Sample.linear1
                          (Load.draw Sample.input) _ _ _)) eq_refl);
    by_evaluation.
Defined.

(** C4 as stated fails at 1 MiB with 1% variance: max is 10485.76 bytes
    and the delta at tick 0 is -10485. *)
Lemma varianceLinear_not_exactly_max :
  ~ (forall (g : Load.NodeGenerator) (dr : Load.Draw),
       2 <= Load.ticksPerPeriod (Load.state g) ->
       phase_ok g ->
       Load.currentTick (Load.state g) = 0 ->
       (inject_Z (Load.varianceLinear g dr)
        == - Load.maxVarianceBytes (Load.state g))%Q).
Proof.
  intros H.
  specialize (H Sample.linear1 (Load.draw Sample.input)).
  assert (E : (inject_Z (Load.varianceLinear Sample.linear1
                           (Load.draw Sample.input))
               == - Load.maxVarianceBytes (Load.state Sample.linear1))%Q).
  { apply H; by_evaluation. }
  vm_compute in E. discriminate E.
Qed.

Lemma varianceRandom_range_witness :
  (0 < Load.maxVarianceBytes (Load.state Sample.random64) <= maxInt)%Q
  /\ (- Load.maxVarianceBytes (Load.state Sample.random64)
        < inject_Z (Load.varianceRandom Sample.random64
                      (Load.mkDraw 1 (1 # 2)))
        < Load.maxVarianceBytes (Load.state Sample.random64))%Q.
Proof.
  split; [by_evaluation|].
  apply (varianceRandom_range Sample.random64 (Load.mkDraw 1 (1 # 2)));
    by_evaluation.
Defined.

(** ** Starting and stopping the loops *)

Section StopProtocol.

Variable math_Pi : Q.
Variable math_Sin : Q -> Q.

(** While the buffer has room for every send the closure still has to
    make, no interleaving with receiving loops blocks it. *)
Lemma runSchedule_never_blocks (sched : list Load.Ev) :
  forall (g : Load.NodeGenerator) (h : Load.Finished) (c : Chan.t),
    Load.finished g = Some c ->
    (Load.signals h + Chan.buffered c <= Chan.cap c)%nat ->
    Load.runSchedule g h sched <> Load.Blocked.
Proof.
  induction sched as [| ev sched IH]; intros g h c Hc Hroom.
  - discriminate.
  - destruct ev; cbn [Load.runSchedule].
    + apply (IH _ h (Chan.recv c)).
      * cbn. rewrite Hc. reflexivity.
      * unfold Chan.recv. destruct (Chan.buffered c); cbn in *; lia.
    + destruct h as [| op h'].
      * now apply (IH g [] c).
      * destruct op; cbn [Load.runHandleOp].
        -- rewrite Hc. cbn [Go.bind]. unfold Chan.send.
           cbn [Load.signals List.filter List.length] in Hroom.
           destruct (Chan.receivers c) as [| r].
           ++ destruct (Nat.ltb_spec (Chan.buffered c) (Chan.cap c));
                [|lia].
              cbn [Go.bind]. eapply IH; [reflexivity|].
              unfold Load.signals in *. cbn in *. lia.
           ++ cbn [Go.bind]. eapply IH; [reflexivity|].
              unfold Load.signals in *. cbn in *. lia.
        -- apply (IH _ h' c); [exact Hc|].
           cbn [Load.signals List.filter] in Hroom. exact Hroom.
Qed.

(** C8.  When [Generate] returns, the channel has capacity 2, which
    covers both the loops started and the sends of the stop handle; and
    however the handle's statements interleave with loops reaching
    their receive (none, some or all of them, before or after any
    send), no statement of the handle blocks. *)
Theorem Generate_handle_never_blocks
    (g : Load.NodeGenerator) (sched : list Load.Ev) :
  (exists c,
     Load.finished (fst (fst (Load.Generate math_Pi math_Sin g))) = Some c
     /\ Chan.cap c = 2%nat
     /\ Chan.buffered c = 0%nat
     /\ (List.length (snd (fst (Load.Generate math_Pi math_Sin g)))
         <= Chan.cap c)%nat
     /\ (Load.signals (snd (Load.Generate math_Pi math_Sin g))
         <= Chan.cap c)%nat)
  /\ Load.runSchedule
       (fst (fst (Load.Generate math_Pi math_Sin g)))
       (snd (Load.Generate math_Pi math_Sin g)) sched
     <> Load.Blocked.
Proof.
  split.
  - exists (Chan.make 2). cbn. repeat split; try lia.
    unfold Load.generateCPU. destruct (Qeq_bool _ _); cbn; lia.
  - apply (runSchedule_never_blocks sched _ _ (Chan.make 2)).
    + reflexivity.
    + cbn. lia.
Qed.

(** What a schedule that lets the whole handle run leaves in the
    channel: the sends of the handle less the receives of the loops. *)
Lemma runSchedule_balance (sched : list Load.Ev) :
  forall (g : Load.NodeGenerator) (h : Load.Finished) (c : Chan.t),
    Load.finished g = Some c ->
    (Load.signals h + Chan.buffered c <= Chan.cap c)%nat ->
    Chan.buffered c = 0%nat \/ Chan.receivers c = 0%nat ->
    (List.length h <= handleSteps sched)%nat ->
    List.In Load.ClearRunning h \/ Load.running g = false ->
    exists g' c',
      Load.runSchedule g h sched = Load.Ran g' []
      /\ Load.finished g' = Some c'
      /\ Z.of_nat (Chan.buffered c') - Z.of_nat (Chan.receivers c')
         = Z.of_nat (Chan.buffered c) - Z.of_nat (Chan.receivers c)
           + Z.of_nat (Load.signals h) - Z.of_nat (loopRecvs sched)
      /\ (Chan.buffered c' = 0%nat \/ Chan.receivers c' = 0%nat)
      /\ Load.running g' = false.
Proof.
  induction sched as [| ev sched IH]; intros g h c Hc Hroom Hex Hlen Hrun.
  - destruct h as [| op h']; [|cbn in Hlen; lia].
    exists g, c. cbn. repeat split; try assumption; try lia.
    destruct Hrun as [[] | Hr]. exact Hr.
  - destruct ev.
    + cbn [Load.runSchedule]. rewrite Hc. cbn [option_map].
      destruct (IH (Load.set_finished g (Some (Chan.recv c))) h
                  (Chan.recv c)) as (g' & c' & E & Ef & Eb & Ex & Er).
      * reflexivity.
      * unfold Chan.recv. destruct (Chan.buffered c); cbn in *; lia.
      * unfold Chan.recv. destruct (Chan.buffered c); cbn; [left|right];
          [reflexivity|]. destruct Hex as [H0 | H0]; [discriminate H0|].
        exact H0.
      * exact Hlen.
      * exact Hrun.
      * exists g', c'. split; [exact E|]. split; [exact Ef|].
        split; [|split; assumption].
        rewrite Eb.
        change (loopRecvs (Load.LoopRecv :: sched))
          with (S (loopRecvs sched)).
        unfold Chan.recv.
        destruct (Chan.buffered c) eqn:Eq;
          cbn [Chan.buffered Chan.receivers]; lia.
    + destruct h as [| op h'].
      * cbn [Load.runSchedule].
        destruct (IH g [] c Hc Hroom Hex) as (g' & c' & E & Rest).
        { cbn. lia. }
        { exact Hrun. }
        exists g', c'. split; [exact E|].
        change (loopRecvs (Load.HandleStep :: sched))
          with (loopRecvs sched). exact Rest.
      * assert (Hlen' : (List.length h' <= handleSteps sched)%nat).
        { unfold handleSteps in *. cbn [List.filter List.length] in Hlen.
          lia. }
        destruct op; cbn [Load.runSchedule Load.runHandleOp].
        -- rewrite Hc. cbn [Go.bind]. unfold Chan.send.
           assert (Hs : Load.signals (Load.SendFinished :: h')
                        = S (Load.signals h')) by reflexivity.
           rewrite Hs in *.
           destruct (Chan.receivers c) as [| r] eqn:Er.
           ++ destruct (Nat.ltb_spec (Chan.buffered c) (Chan.cap c));
                [|lia].
              cbn [Go.bind].
              destruct (IH (Load.set_finished g
                              (Some (Chan.mk (Chan.cap c)
                                       (S (Chan.buffered c)) 0)))
                          h' _ eq_refl)
                as (g' & c' & E & Ef & Eb & Ex & Erun).
              ** cbn. lia.
              ** right. reflexivity.
              ** exact Hlen'.
              ** destruct Hrun as [[Hd | Hin] | Hr];
                   [discriminate Hd | left; exact Hin | right; exact Hr].
              ** exists g', c'. split; [exact E|]. split; [exact Ef|].
                 split; [|split; assumption].
                 rewrite Eb.
                 change (loopRecvs (Load.HandleStep :: sched))
                   with (loopRecvs sched).
                 cbn [Chan.buffered Chan.receivers]. lia.
           ++ cbn [Go.bind].
              destruct Hex as [Hb0 | Hr0]; [|lia].
              destruct (IH (Load.set_finished g
                              (Some (Chan.mk (Chan.cap c)
                                       (Chan.buffered c) r)))
                          h' _ eq_refl)
                as (g' & c' & E & Ef & Eb & Ex & Erun).
              ** cbn. lia.
              ** left. cbn. exact Hb0.
              ** exact Hlen'.
              ** destruct Hrun as [[Hd | Hin] | Hr];
                   [discriminate Hd | left; exact Hin | right; exact Hr].
              ** exists g', c'. split; [exact E|]. split; [exact Ef|].
                 split; [|split; assumption].
                 rewrite Eb.
                 change (loopRecvs (Load.HandleStep :: sched))
                   with (loopRecvs sched).
                 cbn [Chan.buffered Chan.receivers]. lia.
        -- destruct (IH (Load.set_running g false) h' c)
             as (g' & c' & E & Ef & Eb & Ex & Erun).
           ++ exact Hc.
           ++ exact Hroom.
           ++ exact Hex.
           ++ exact Hlen'.
           ++ right. reflexivity.
           ++ exists g', c'. split; [exact E|]. split; [exact Ef|].
              split; [|split; assumption].
              rewrite Eb.
              change (loopRecvs (Load.HandleStep :: sched))
                with (loopRecvs sched).
              reflexivity.
Qed.

(** C2, as the code has it.  The stop handle sends two signals whatever
    the core count.  One loop is started when the core count is 0 and
    two otherwise, so the signals equal the loops started exactly when
    the core count is not 0, and exceed them by one when it is 0.  Run
    on its own the handle leaves both signals in the channel and clears
    the running flag.  In every interleaving in which the handle runs to
    its end and each loop started receives once, no receiver is left
    waiting and the running flag is cleared; with core count 0 one
    signal stays in the channel's buffer, and otherwise the buffer is
    empty. *)
Theorem Generate_signals (g : Load.NodeGenerator) :
  Load.signals (snd (Load.Generate math_Pi math_Sin g)) = 2%nat
  /\ List.length (snd (fst (Load.Generate math_Pi math_Sin g)))
     = (if Qeq_bool (Load.cpuCoresCount g) 0 then 1 else 2)%nat
  /\ (exists g',
        Load.runSchedule
          (fst (fst (Load.Generate math_Pi math_Sin g)))
          (snd (Load.Generate math_Pi math_Sin g))
          [Load.HandleStep; Load.HandleStep; Load.HandleStep]
        = Load.Ran g' []
        /\ option_map Chan.buffered (Load.finished g') = Some 2%nat
        /\ Load.running g' = false)
  /\ (forall sched : list Load.Ev,
        (3 <= handleSteps sched)%nat ->
        loopRecvs sched
        = List.length (snd (fst (Load.Generate math_Pi math_Sin g))) ->
        exists g' c',
          Load.runSchedule
            (fst (fst (Load.Generate math_Pi math_Sin g)))
            (snd (Load.Generate math_Pi math_Sin g)) sched
          = Load.Ran g' []
          /\ Load.finished g' = Some c'
          /\ Chan.buffered c'
             = (if Qeq_bool (Load.cpuCoresCount g) 0 then 1 else 0)%nat
          /\ Chan.receivers c' = 0%nat
          /\ Load.running g' = false).
Proof.
  assert (Hloops : List.length (snd (fst (Load.Generate math_Pi math_Sin g)))
                   = (if Qeq_bool (Load.cpuCoresCount g) 0
                      then 1 else 2)%nat).
  { cbn. unfold Load.generateCPU. destruct (Qeq_bool _ _); reflexivity. }
  split; [reflexivity|]. split; [exact Hloops|]. split.
  - eexists. split; [reflexivity|]. split; reflexivity.
  - intros sched Hsteps Hrecv. rewrite Hloops in Hrecv.
    destruct (runSchedule_balance sched
                (fst (fst (Load.Generate math_Pi math_Sin g)))
                (snd (Load.Generate math_Pi math_Sin g))
                (Chan.make 2))
      as (g' & c' & E & Ef & Eb & Ex & Er).
    + reflexivity.
    + cbn. lia.
    + left. reflexivity.
    + cbn. exact Hsteps.
    + left. cbn. auto.
    + exists g', c'. split; [exact E|]. split; [exact Ef|].
      rewrite Hrecv in Eb.
      change (Load.signals (snd (Load.Generate math_Pi math_Sin g)))
        with 2%nat in Eb.
      change (Chan.buffered (Chan.make 2)) with 0%nat in Eb.
      change (Chan.receivers (Chan.make 2)) with 0%nat in Eb.
      destruct (Qeq_bool (Load.cpuCoresCount g) 0);
        (split; [|split; [|exact Er]]); destruct Ex; lia.
Qed.

End StopProtocol.

(** C2 as stated fails without CPU cores: one loop is started and two
    signals are sent. *)
Lemma signals_exceed_loops_without_cpu :
  ~ (forall (math_Pi : Q) (math_Sin : Q -> Q) (g : Load.NodeGenerator),
       Load.signals (snd (Load.Generate math_Pi math_Sin g))
       = List.length (snd (fst (Load.Generate math_Pi math_Sin g)))).
Proof.
  intros H. specialize (H Sample.Pi Sample.Sin Sample.nocpu).
  cbn in H. discriminate H.
Qed.

(** ** CPU duty cycle *)

(** A whole number of microseconds between 0 and 100000, as a duration. *)
Lemma microseconds_fit (q : Q) :
  (0 <= q <= 100000)%Q ->
  0 <= Qfloor q <= 100000
  /\ Go.int_mul (Go.int_of_float64 q) Go.Microsecond = 1000 * Qfloor q.
Proof.
  intros [H0 H1].
  assert (B : 0 <= Qfloor q <= 100000).
  { split.
    - change 0 with (Qfloor 0). now apply Qfloor_resp_le.
    - change 100000 with (Qfloor 100000). now apply Qfloor_resp_le. }
  split; [exact B|].
  rewrite int_of_float64_floor by assumption.
  unfold Go.int_mul, Go.Microsecond.
  rewrite wrap64_fits by (unfold Go.fits_int; lia). lia.
Qed.

Lemma Qfloor_bounds (q : Q) :
  (inject_Z (Qfloor q) <= q < inject_Z (Qfloor q) + 1)%Q.
Proof.
  split; [apply Qfloor_le|].
  pose proof (Qlt_floor q) as H. rewrite inject_Z_plus in H. exact H.
Qed.

(** C5, as the code has it.  The configured CPU setting is a percentage,
    not a fraction: for a setting between 0 and 100 whose run time
    1000 * percentage is a whole number of microseconds (the whole-number
    percentages among them), each worker spins for
    runDuration = unitInterval * percentage / 100 and then sleeps for
    sleepDuration = unitInterval - runDuration, with the unit interval
    fixed at 100 ms.  The earlier generator computes the same two
    durations. *)
Theorem cpu_duty_cycle
    (g : Load.NodeGenerator) (lg : LegacyLoad.NodeGenerator) (k : Z) :
  (0 <= Load.cpuPercentage g <= 100)%Q ->
  (1000 * Load.cpuPercentage g == inject_Z k)%Q ->
  LegacyLoad.cpuPercentage lg = Load.cpuPercentage g ->
  Load.workerCycle g
  = [Load.BusyWait (Load.runDuration g); Load.Sleep (Load.sleepDuration g)]
  /\ (inject_Z (Load.runDuration g)
      == inject_Z unitInterval * Load.cpuPercentage g / 100)%Q
  /\ Load.sleepDuration g = unitInterval - Load.runDuration g
  /\ Load.runDuration g = 1000 * k
  /\ 0 <= Load.runDuration g <= unitInterval
  /\ 0 <= Load.sleepDuration g <= unitInterval
  /\ LegacyLoad.runDuration lg = Load.runDuration g
  /\ LegacyLoad.sleepDuration lg = Load.sleepDuration g.
Proof.
  intros [Hp0 Hp1] Hk HL.
  assert (Ha : (0 <= Load.runMicrosecond g <= 100000)%Q).
  { unfold Load.runMicrosecond, Load.unitHundredsOfMicrosecond. lra. }
  assert (Hb : (0 <= Load.sleepMicrosecond g <= 100000)%Q).
  { unfold Load.sleepMicrosecond, Load.unitHundredsOfMicrosecond. lra. }
  destruct (microseconds_fit _ Ha) as [Ba Ea].
  destruct (microseconds_fit _ Hb) as [Bb Eb].
  fold (Load.runDuration g) in Ea. fold (Load.sleepDuration g) in Eb.
  assert (Eka : Qfloor (Load.runMicrosecond g) = k).
  { rewrite <- (Qfloor_Z k). apply Qfloor_comp.
    unfold Load.runMicrosecond, Load.unitHundredsOfMicrosecond.
    exact Hk. }
  assert (Ekb : Qfloor (Load.sleepMicrosecond g) = 100000 - k).
  { rewrite <- (Qfloor_Z (100000 - k)). apply Qfloor_comp.
    unfold Zminus. rewrite inject_Z_plus, inject_Z_opp.
    unfold Load.sleepMicrosecond, Load.runMicrosecond,
      Load.unitHundredsOfMicrosecond.
    rewrite <- Hk. change (inject_Z 100000) with 100000%Q. ring. }
  rewrite Eka in *. rewrite Ekb in *.
  assert (EU : unitInterval = 100000000) by reflexivity.
  split; [reflexivity|].
  split; [|split; [|split; [|split; [|split; [|split]]]]].
  - rewrite Ea, inject_Z_mult.
    change (inject_Z unitInterval) with 100000000%Q.
    change (inject_Z 1000) with 1000%Q. rewrite <- Hk. field.
  - lia.
  - exact Ea.
  - lia.
  - lia.
  - unfold LegacyLoad.runDuration, LegacyLoad.runMicrosecond,
      Load.runDuration, Load.runMicrosecond. now rewrite HL.
  - unfold LegacyLoad.sleepDuration, LegacyLoad.sleepMicrosecond,
      LegacyLoad.runMicrosecond, Load.sleepDuration, Load.sleepMicrosecond,
      Load.runMicrosecond. now rewrite HL.
Qed.

Lemma cpu_duty_cycle_witness :
  (0 <= Load.cpuPercentage Sample.twocores <= 100)%Q
  /\ (1000 * Load.cpuPercentage Sample.twocores == inject_Z 50000)%Q
  /\ Load.sleepDuration Sample.twocores
     = unitInterval - Load.runDuration Sample.twocores
  /\ Load.runDuration Sample.twocores = 1000 * 50000.
Proof.
  split; [by_evaluation|]. split; [by_evaluation|].
  destruct (cpu_duty_cycle Sample.twocores
              (LegacyLoad.NewNodeGenerator 2 50 100 0 "" 1) 50000)
    as (_ & _ & Es & Er & _).
  - by_evaluation.
  - by_evaluation.
  - reflexivity.
  - split; [exact Es | exact Er].
Defined.

(** C5 as stated fails on both counts.  Read as a fraction of the unit,
    the setting 1 would spin for the whole 100 ms and never sleep, but
    the worker spins for 1 ms and sleeps for 99 ms.  Read as a
    percentage, the setting 1/2048 would spin for about 488 ns, but the
    conversion to whole microseconds leaves a run of 0 and a sleep of
    99999 microseconds, one microsecond short of the unit. *)
Lemma runDuration_not_unit_times_fraction :
  ~ (forall g : Load.NodeGenerator,
       (0 <= Load.cpuPercentage g <= 1)%Q ->
       (inject_Z (Load.runDuration g)
        == inject_Z unitInterval * Load.cpuPercentage g)%Q
       /\ Load.sleepDuration g = unitInterval - Load.runDuration g)
  /\ ~ (forall g : Load.NodeGenerator,
          (0 <= Load.cpuPercentage g <= 100)%Q ->
          (inject_Z (Load.runDuration g)
           == inject_Z unitInterval * Load.cpuPercentage g / 100)%Q
          /\ Load.sleepDuration g = unitInterval - Load.runDuration g).
Proof.
  split.
  - intros H.
    destruct (H Sample.cpu1) as [E _]; [by_evaluation|].
    vm_compute in E. discriminate E.
  - intros H.
    destruct (H Sample.cpu_small) as [_ E]; [by_evaluation|].
    vm_compute in E. discriminate E.
Qed.

(** ** The duration budget of the gRPC handler *)

Lemma sleeps_app (a b : list Handlers.Event) :
  Handlers.sleeps (a ++ b) = Handlers.sleeps a ++ Handlers.sleeps b.
Proof.
  induction a as [| e a IH]; [reflexivity|].
  destruct e; cbn; now rewrite IH.
Qed.

(** Without an injected error the handler's upstream error is the pool's
    error when there are upstream URIs and nil otherwise. *)
Lemma Handle_no_upstream_error (f : Handlers.FakeServer)
    (o : Handlers.Observed) :
  Handlers.upstreamURIs f = [] \/ Handlers.poolError o = None ->
  (if (0 <? List.length (Handlers.upstreamURIs f))%nat
   then Handlers.poolError o else None) = None.
Proof.
  intros [E | E]; rewrite E; [reflexivity|].
  now destruct (0 <? _)%nat.
Qed.

(** C7.  With no injected error and no upstream error, the handler
    computes remaining = D - E; when it is positive the handler sleeps
    once, for exactly that long, and when it is zero or negative the
    handler does not sleep; in both cases remaining is reported to the
    log and the request succeeds with a response and a nil error. *)
Theorem Handle_sleeps_remaining
    (f : Handlers.FakeServer) (o : Handlers.Observed) :
  Handlers.injected o = None ->
  Handlers.upstreamURIs f = [] \/ Handlers.poolError o = None ->
  Go.fits_int (Handlers.d o - Handlers.et o) ->
  (0 < Handlers.d o - Handlers.et o ->
   Handlers.sleeps (fst (Handlers.Handle f o))
   = [Handlers.d o - Handlers.et o])
  /\ (Handlers.d o - Handlers.et o <= 0 ->
      Handlers.sleeps (fst (Handlers.Handle f o)) = [])
  /\ List.In (Handlers.EvSleepService (Handlers.d o - Handlers.et o))
       (fst (Handlers.Handle f o))
  /\ snd (snd (Handlers.Handle f o)) = None
  /\ (exists resp,
        fst (snd (Handlers.Handle f o)) = Some resp
        /\ Handlers.Code resp = 0
        /\ Handlers.Error resp = EmptyString).
Proof.
  intros Hinj Hup Hfit. unfold Handlers.Handle.
  rewrite Hinj, (Handle_no_upstream_error f o Hup).
  unfold Go.int_sub. rewrite (wrap64_fits _ Hfit).
  cbn [fst snd].
  set (fanout := if (0 <? List.length (Handlers.upstreamURIs f))%nat
                 then _ else _).
  assert (Hfan : Handlers.sleeps fanout = []).
  { subst fanout. now destruct (0 <? _)%nat. }
  repeat split.
  - intros Hpos. apply Z.ltb_lt in Hpos. rewrite Hpos.
    cbn [List.app Handlers.sleeps]. rewrite sleeps_app, Hfan. reflexivity.
  - intros Hneg. apply Z.ltb_ge in Hneg. rewrite Hneg.
    cbn [List.app Handlers.sleeps]. rewrite sleeps_app, Hfan. reflexivity.
  - cbn [List.app]. right. right. apply in_or_app. right.
    right. left. reflexivity.
  - eexists. repeat split.
Qed.

(** C10.  With no injected error, upstream URIs configured and an error
    from the worker pool, the handler returns that error as a gRPC status
    with code Internal and no response, and its trace contains neither a
    sleep nor the report of a sleep: the remaining time is computed but
    never slept. *)
Theorem Handle_upstream_error_skips_sleep
    (f : Handlers.FakeServer) (o : Handlers.Observed) (msg : string) :
  Handlers.injected o = None ->
  Handlers.upstreamURIs f <> [] ->
  Handlers.poolError o = Some msg ->
  Handlers.sleeps (fst (Handlers.Handle f o)) = []
  /\ (forall rd, ~ List.In (Handlers.EvSleepService rd)
                     (fst (Handlers.Handle f o)))
  /\ fst (snd (Handlers.Handle f o)) = None
  /\ (exists st,
        snd (snd (Handlers.Handle f o)) = Some st
        /\ Handlers.status_code st = Handlers.codes_Internal
        /\ Handlers.status_message st = msg
        /\ Handlers.Code (Handlers.status_details st)
           = Handlers.codes_Internal
        /\ Handlers.Error (Handlers.status_details st) = msg)
  /\ (exists before,
        fst (Handlers.Handle f o)
        = before ++ [Handlers.EvCalculate;
                     Handlers.EvSetMetadata (Go.Itoa Handlers.codes_Internal);
                     Handlers.EvSetError msg;
                     Handlers.EvRequestFinished; Handlers.EvStopLoad]
        /\ List.In (Handlers.EvFanOut (Handlers.workerCount f)
                      (Handlers.upstreamURIs f)) before).
Proof.
  intros Hinj Huris Herr. unfold Handlers.Handle. rewrite Hinj.
  destruct (Handlers.upstreamURIs f) as [| u us] eqn:Eu; [congruence|].
  cbn [List.length Nat.ltb Nat.leb]. rewrite Herr. cbn [fst snd].
  repeat split.
  - intros rd Hin. cbn in Hin.
    repeat (destruct Hin as [Hin | Hin]; [discriminate Hin|]). exact Hin.
  - eexists. repeat split.
  - exists [Handlers.EvGenerate; Handlers.EvInject;
            Handlers.EvFanOut (Handlers.workerCount f) (u :: us)].
    split; [reflexivity|]. right. right. left. reflexivity.
Qed.

Lemma Handle_sleeps_remaining_witness :
  Go.fits_int (100000000 - 30000000)
  /\ Handlers.sleeps
       (fst (Handlers.Handle
               (Handlers.mkServer "web" "hello" ["http://api"%string] 1)
               (Handlers.mkObserved 0 None None [] 100000000 30000000
                  100000000)))
     = [70000000].
Proof.
  split; [unfold Go.fits_int; lia|].
  refine (proj1 (Handle_sleeps_remaining
                   (Handlers.mkServer "web" "hello" ["http://api"%string] 1)
                   (Handlers.mkObserved 0 None None [] 100000000 30000000
                      100000000)
                   eq_refl (or_intror eq_refl) _) _);
    [unfold Go.fits_int; cbn; lia | cbn; lia].
Defined.

Lemma Handle_upstream_error_skips_sleep_witness :
  Handlers.poolError
    (Handlers.mkObserved 0 None (Some "upstream failed"%string) []
       100000000 30000000 0)
  = Some "upstream failed"%string
  /\ Handlers.sleeps
       (fst (Handlers.Handle
               (Handlers.mkServer "web" "hello" ["http://api"%string] 1)
               (Handlers.mkObserved 0 None (Some "upstream failed"%string)
                  [] 100000000 30000000 0)))
     = [].
Proof.
  split; [reflexivity|].
  refine (proj1 (Handle_upstream_error_skips_sleep
                   (Handlers.mkServer "web" "hello" ["http://api"%string] 1)
                   (Handlers.mkObserved 0 None
                      (Some "upstream failed"%string) [] 100000000
                      30000000 0)
                   "upstream failed" eq_refl _ eq_refl)).
  discriminate.
Defined.

(* ------------------------------------------------------------------ *)
(** * Further properties of the code *)

(** ** [gcd] and [reduce] *)

Lemma gcd_unfold (a b : Z) :
  LoadView.gcd a b = if b =? 0 then a else LoadView.gcd b (Z.rem a b).
Proof.
  funelim (LoadView.gcd a b).
  - subst. reflexivity.
  - destruct (Z.eqb_spec b 0); [contradiction | reflexivity].
Qed.

Lemma Zgcd_rem_step (a b : Z) : Z.gcd b (Z.rem a b) = Z.gcd a b.
Proof.
  destruct (Z.eq_dec b 0) as [-> | Hb].
  - rewrite Z.rem_0_r_ext by reflexivity. apply Z.gcd_comm.
  - rewrite Z.gcd_comm, Z.gcd_rem by assumption. apply Z.gcd_comm.
Qed.

Lemma gcd_spec (a b : Z) :
  Z.abs (LoadView.gcd a b) = Z.gcd a b
  /\ (0 <= a -> 0 <= b -> LoadView.gcd a b = Z.gcd a b)
  /\ (LoadView.gcd a b = 0 -> a = 0 /\ b = 0).
Proof.
  funelim (LoadView.gcd a b).
  - subst. rewrite Z.gcd_0_r. repeat split; try lia.
  - destruct H as (Habs & Hpos & Hzero).
    rewrite Zgcd_rem_step in Habs, Hpos.
    split; [exact Habs|]. split.
    + intros Ha Hb. apply Hpos; [lia|].
      apply Z.rem_nonneg; lia.
    + intros E. apply Hzero in E. lia.
Qed.

(** The loop of [gcd] ends for every pair of integers; up to its sign
    the result is the greatest common divisor, it is not negative when
    neither argument is, and it is 0 only for gcd(0, 0). *)
Theorem gcd_correct (a b : Z) :
  Z.abs (LoadView.gcd a b) = Z.gcd a b
  /\ (0 <= a -> 0 <= b -> LoadView.gcd a b = Z.gcd a b)
  /\ (LoadView.gcd a b = 0 -> a = 0 /\ b = 0).
Proof. exact (gcd_spec a b). Qed.

(** [reduce] never divides by zero: it returns for all integers. *)
Theorem reduce_total (num denom : Z) :
  exists n d, LoadView.reduce num denom = Some (n, d).
Proof.
  unfold LoadView.reduce.
  destruct (Z.eqb_spec num 0) as [E0 | Hn]; [eauto|].
  destruct (LoadView.gcd num denom =? 1); [eauto|].
  unfold Go.int_quo.
  destruct (Z.eqb_spec (LoadView.gcd num denom) 0) as [Eg | _].
  - apply (proj2 (proj2 (gcd_spec num denom))) in Eg. lia.
  - cbn. eauto.
Qed.

Lemma reduce_spec (num denom : Z) :
  0 <= num < 2 ^ 63 ->
  0 <= denom < 2 ^ 63 ->
  exists n d,
    LoadView.reduce num denom = Some (n, d)
    /\ n * denom = num * d
    /\ 0 <= n <= num /\ 0 <= d <= denom
    /\ (num = 0 -> n = 0 /\ d = denom)
    /\ (0 < num -> Z.gcd n d = 1 /\ 0 < n).
Proof.
  intros Hn Hd. unfold LoadView.reduce.
  destruct (Z.eqb_spec num 0) as [E0 | Hn0].
  { subst. exists 0, denom. repeat split; lia. }
  destruct (gcd_spec num denom) as (_ & Hg & _).
  specialize (Hg ltac:(lia) ltac:(lia)). rewrite Hg.
  pose proof (Z.gcd_nonneg num denom) as Hg0.
  destruct (Z.eqb_spec (Z.gcd num denom) 1) as [E1 | Hg1].
  { exists num, denom. repeat split; try lia. }
  assert (Hgpos : 0 < Z.gcd num denom).
  { destruct (Z.eq_dec (Z.gcd num denom) 0) as [E | ]; [|lia].
    apply Z.gcd_eq_0_l in E. lia. }
  destruct (Z.gcd_divide_l num denom) as [qn Eqn].
  destruct (Z.gcd_divide_r num denom) as [qd Eqd].
  set (G := Z.gcd num denom) in *.
  assert (Qn : num ÷ G = qn).
  { rewrite Eqn at 1. apply Z.quot_mul. lia. }
  assert (Qd : denom ÷ G = qd).
  { rewrite Eqd at 1. apply Z.quot_mul. lia. }
  assert (Bn : 0 <= qn <= num) by nia.
  assert (Bd : 0 <= qd <= denom) by nia.
  unfold Go.int_quo.
  destruct (Z.eqb_spec G 0) as [E | _]; [lia|].
  cbn [Go.bind]. rewrite Qn, Qd.
  rewrite !wrap64_fits by (unfold Go.fits_int; lia).
  exists qn, qd. split; [reflexivity|].
  split; [nia|]. split; [exact Bn|]. split; [exact Bd|].
  split; [lia|]. intros _. split; [|nia].
  rewrite <- Qn, <- Qd.
  rewrite !Z.quot_div_nonneg by lia.
  apply Z.gcd_div_gcd; [lia | reflexivity].
Qed.

(** For a numerator and a denominator that are not negative, [reduce]
    returns the same fraction; a numerator of 0 leaves the pair as it is,
    and otherwise the pair returned is in lowest terms. *)
Theorem reduce_lowest_terms (num denom : Z) :
  0 <= num < 2 ^ 63 ->
  0 <= denom < 2 ^ 63 ->
  exists n d,
    LoadView.reduce num denom = Some (n, d)
    /\ n * denom = num * d
    /\ 0 <= n <= num /\ 0 <= d <= denom
    /\ (num = 0 -> n = 0 /\ d = denom)
    /\ (0 < num -> Z.gcd n d = 1 /\ 0 < n).
Proof. exact (reduce_spec num denom). Qed.

Lemma reduce_lowest_terms_witness :
  0 <= 10 < 2 ^ 63
  /\ exists n d,
       LoadView.reduce 10 20 = Some (n, d)
       /\ n * 20 = 10 * d
       /\ 0 <= n <= 10 /\ 0 <= d <= 20
       /\ (10 = 0 -> n = 0 /\ d = 20)
       /\ (0 < 10 -> Z.gcd n d = 1 /\ 0 < n).
Proof.
  split; [lia|].
  apply (reduce_lowest_terms 10 20); lia.
Defined.

(** ** The phase as text and as an angle *)

Lemma string_length_append (a b : string) :
  String.length (String.append a b)
  = (String.length a + String.length b)%nat.
Proof. induction a as [| c a IH]; cbn; [reflexivity | now rewrite IH]. Qed.

(** A text that holds the letter pi, a slash and something before or
    after is neither "0" nor the letter pi alone. *)
Lemma pi_fraction_distinct (a b s : string) :
  s = String.append a
        (String.append LoadView.pi_str (String.append "/" b)) ->
  s <> "0"%string /\ s <> LoadView.pi_str.
Proof.
  intros E.
  assert (L : (3 <= String.length s)%nat).
  { rewrite E, !string_length_append. cbn. lia. }
  split; intros ->; cbn in L; lia.
Qed.

(** Inside the phase invariant, [radString(true)] never panics; it
    prints "0" exactly at tick 0, and the letter pi alone exactly at the
    half period, where 2 * currentTick = ticksPerPeriod. *)
Theorem radString_reduced (g : Load.NodeGenerator) :
  phase_ok g ->
  Load.ticksPerPeriod (Load.state g) < 2 ^ 62 ->
  exists s,
    LoadView.radString g true = Some s
    /\ (s = "0"%string <-> Load.currentTick (Load.state g) = 0)
    /\ (s = LoadView.pi_str
        <-> 2 * Load.currentTick (Load.state g)
            = Load.ticksPerPeriod (Load.state g)).
Proof.
  unfold phase_ok, LoadView.radString. intros Hok HT.
  set (t := Load.currentTick (Load.state g)) in *.
  set (T := Load.ticksPerPeriod (Load.state g)) in *.
  unfold Go.int_mul. rewrite wrap64_fits by (unfold Go.fits_int; lia).
  destruct (reduce_spec (t * 2) T ltac:(lia) ltac:(lia))
    as (n & d & E & Efrac & Bn & Bd & Hzero & Hpos).
  rewrite E. cbn [Go.bind fst snd].
  destruct (Z.eq_dec t 0) as [Et | Ht].
  - destruct Hzero as [-> ->]; [lia|]. cbn [Z.eqb].
    eexists. split; [reflexivity|]. split; split; intros H;
      try reflexivity; try exact Et; try discriminate H. lia.
  - destruct Hpos as [Hg Hn]; [lia|].
    destruct (Z.eqb_spec n 0) as [|_]; [lia|].
    destruct (Z.eqb_spec d 1) as [Ed | Hd].
    + eexists. split; [reflexivity|]. split; split; intros H;
        try discriminate H; try lia; try reflexivity.
      subst d. destruct (Z.eq_dec n 1) as [-> | Hn1]; [lia|].
      assert (2 * T <= n * T) by (apply Z.mul_le_mono_nonneg_r; lia). lia.
    + assert (Hhalf : 2 * t <> T).
      { intros Eh.
        assert (n = d).
        { apply (Z.mul_cancel_r _ _ T); lia. }
        subst d. rewrite Z.gcd_diag in Hg. lia. }
      destruct (n =? 1).
      * eexists. split; [reflexivity|].
        destruct (pi_fraction_distinct EmptyString (Go.Itoa d) _ eq_refl)
          as [N0 Np].
        split; split; intros H; try contradiction; lia.
      * eexists. split; [reflexivity|].
        destruct (pi_fraction_distinct (Go.Itoa n) (Go.Itoa d) _ eq_refl)
          as [N0 Np].
        split; split; intros H; try contradiction; lia.
Qed.

Lemma radString_reduced_witness :
  phase_ok Sample.linear100
  /\ exists s,
       LoadView.radString Sample.linear100 true = Some s
       /\ (s = "0"%string
           <-> Load.currentTick (Load.state Sample.linear100) = 0)
       /\ (s = LoadView.pi_str
           <-> 2 * Load.currentTick (Load.state Sample.linear100)
               = Load.ticksPerPeriod (Load.state Sample.linear100)).
Proof.
  split; [by_evaluation|].
  apply radString_reduced; by_evaluation.
Defined.



(** ** More on the variance models *)

Lemma int_of_float64_monotone (p q : Q) :
  (p <= q)%Q -> Go.int_of_float64 p <= Go.int_of_float64 q.
Proof.
  intros H. destruct (Qlt_le_dec p 0) as [Hp | Hp];
    destruct (Qlt_le_dec q 0) as [Hq | Hq].
  - rewrite !int_of_float64_ceiling by lra. now apply Qceiling_resp_le.
  - destruct (int_of_float64_nonpos p ltac:(lra)) as [_ Hu].
    destruct (int_of_float64_nonneg q Hq) as [Hl _].
    rewrite Zle_Qle. lra.
  - lra.
  - rewrite !int_of_float64_floor by lra. now apply Qfloor_resp_le.
Qed.

Lemma clamp1_bounded (q : Q) : (- (1) <= clamp1 q <= 1)%Q.
Proof.
  unfold clamp1.
  destruct (Qle_bool q (- (1))) eqn:E1; [lra|].
  destruct (Qle_bool 1 q) eqn:E2; [lra|].
  assert (H1 : ~ (q <= - (1))%Q).
  { intros H. apply Qle_bool_iff in H. congruence. }
  assert (H2 : ~ (1 <= q)%Q).
  { intros H. apply Qle_bool_iff in H. congruence. }
  apply Qnot_le_lt in H1, H2. lra.
Qed.

(** Inside the phase invariant, with a sine between -1 and 1 and a
    non-negative maximum variance within the range of [int], the delta of
    the sine model stays within [-max, +max]. *)
Theorem varianceSineWave_range
    (math_Pi : Q) (math_Sin : Q -> Q)
    (g : Load.NodeGenerator) (dr : Load.Draw) :
  (forall r, - (1) <= math_Sin r <= 1)%Q ->
  phase_ok g ->
  (0 <= Load.maxVarianceBytes (Load.state g) <= maxInt)%Q ->
  (- Load.maxVarianceBytes (Load.state g)
     <= inject_Z (Load.varianceSineWave math_Pi math_Sin g dr)
     <= Load.maxVarianceBytes (Load.state g))%Q.
Proof.
  intros Hsin _ [HM _]. unfold Load.varianceSineWave.
  apply int_of_float64_within.
  specialize (Hsin (Load.rad math_Pi g)).
  set (M := Load.maxVarianceBytes (Load.state g)) in *.
  set (S := math_Sin _) in *. nra.
Qed.

Lemma varianceSineWave_range_witness :
  phase_ok Sample.sine_quarter
  /\ (0 < Load.varianceSineWave Sample.Pi355 Sample.SinTaylor
            Sample.sine_quarter (Load.draw Sample.input))
  /\ (- Load.maxVarianceBytes (Load.state Sample.sine_quarter)
        <= inject_Z (Load.varianceSineWave Sample.Pi355 Sample.SinTaylor
                       Sample.sine_quarter (Load.draw Sample.input))
        <= Load.maxVarianceBytes (Load.state Sample.sine_quarter))%Q.
Proof.
  split; [by_evaluation|]. split; [by_evaluation|].
  apply (varianceSineWave_range Sample.Pi355 Sample.SinTaylor).
  - intros r. apply clamp1_bounded.
  - by_evaluation.
  - by_evaluation.
Defined.

(** The fraction of the linear model for two generators that differ in
    the tick only. *)
Lemma linearX_as_fraction (g : Load.NodeGenerator) :
  2 <= Load.ticksPerPeriod (Load.state g) < 2 ^ 63 ->
  (Load.linearX g
   == inject_Z (Load.currentTick (Load.state g))
      / inject_Z (Load.ticksPerPeriod (Load.state g) - 1))%Q
  /\ (0 < inject_Z (Load.ticksPerPeriod (Load.state g) - 1))%Q.
Proof.
  intros HT. unfold Load.linearX, Go.float64_of_int, Go.int_sub.
  rewrite wrap64_fits by (unfold Go.fits_int; lia).
  split; [reflexivity|].
  change 0%Q with (inject_Z 0). rewrite <- Zlt_Qlt. lia.
Qed.

(** The linear model is a rising ramp: of two phases inside the
    invariant, with the same period of at least 2 ticks and the same
    non-negative maximum variance within the range of [int], the later
    tick has the larger or equal delta. *)
Theorem varianceLinear_monotone
    (g1 g2 : Load.NodeGenerator) (dr1 dr2 : Load.Draw) :
  2 <= Load.ticksPerPeriod (Load.state g1) < 2 ^ 63 ->
  Load.ticksPerPeriod (Load.state g2) = Load.ticksPerPeriod (Load.state g1) ->
  Load.maxVarianceBytes (Load.state g2)
  = Load.maxVarianceBytes (Load.state g1) ->
  (0 <= Load.maxVarianceBytes (Load.state g1) <= maxInt)%Q ->
  phase_ok g1 ->
  phase_ok g2 ->
  Load.currentTick (Load.state g1) <= Load.currentTick (Load.state g2) ->
  Load.varianceLinear g1 dr1 <= Load.varianceLinear g2 dr2.
Proof.
  intros HT ET EM [HM _] _ _ Ht.
  destruct (linearX_as_fraction g1 HT) as [E1 Hpos].
  destruct (linearX_as_fraction g2 ltac:(rewrite ET; exact HT)) as [E2 _].
  rewrite ET in E2.
  unfold Load.varianceLinear. apply int_of_float64_monotone.
  rewrite EM, E1, E2.
  set (M := Load.maxVarianceBytes (Load.state g1)) in *.
  set (D := inject_Z (Load.ticksPerPeriod (Load.state g1) - 1)) in *.
  assert (Hle : (inject_Z (Load.currentTick (Load.state g1)) / D
                 <= inject_Z (Load.currentTick (Load.state g2)) / D)%Q).
  { apply Qmult_le_compat_r.
    - rewrite <- Zle_Qle. exact Ht.
    - apply Qlt_le_weak, Qinv_lt_0_compat. exact Hpos. }
  set (A := (inject_Z (Load.currentTick (Load.state g1)) / D)%Q) in *.
  set (B := (inject_Z (Load.currentTick (Load.state g2)) / D)%Q) in *.
  nra.
Qed.

Lemma varianceLinear_monotone_witness :
  Load.currentTick (Load.state Sample.linear100)
    < Load.currentTick (Load.state Sample.linear100_tick1)
  /\ Load.varianceLinear Sample.linear100 (Load.draw Sample.input)
     <= Load.varianceLinear Sample.linear100_tick1 (Load.draw Sample.input).
Proof.
  split; [by_evaluation|].
  apply varianceLinear_monotone; try reflexivity; by_evaluation.
Defined.

(** ** Construction and the loop without variance *)



(** A variance function that always answers 0 keeps the loop at its
    current size. *)
Lemma memoryIterations_zero_delta (delta : Load.varianceFunc)
    (inputs : list Load.TickInput) :
  (forall g dr, delta g dr = 0) ->
  forall g : Load.NodeGenerator,
    Load.ticksPerPeriod (Load.state g) < 2 ^ 63 ->
    phase_ok g ->
    0 <= Load.currentBytes (Load.state g) < 2 ^ 63 ->
    exists g',
      Load.memoryIterations delta g inputs
      = Some (g', List.repeat (Load.currentBytes (Load.state g))
                    (List.length inputs))
      /\ Load.currentBytes (Load.state g')
         = Load.currentBytes (Load.state g).
Proof.
  intros Hz. induction inputs as [| i rest IH]; intros g HT Hok Hb.
  - exists g. split; reflexivity.
  - cbn [Load.memoryIterations List.length List.repeat].
    destruct (memoryIteration_spec delta g i HT Hok)
      as [[_ Hneg] | (g1 & E & _ & Eb & Et & ET)].
    + rewrite Hz in Hneg. unfold Go.int_add in Hneg.
      rewrite Z.add_0_r, wrap64_fits in Hneg
        by (unfold Go.fits_int; lia). lia.
    + rewrite Hz in Eb. unfold Go.int_add in Eb.
      rewrite Z.add_0_r, wrap64_fits in Eb by (unfold Go.fits_int; lia).
      rewrite E. cbn [Go.bind fst snd].
      destruct (IH g1) as (g' & E' & Eb').
      * rewrite ET. exact HT.
      * unfold phase_ok. rewrite Et, ET. apply Z.mod_pos_bound.
        unfold phase_ok in Hok. lia.
      * rewrite Eb. exact Hb.
      * exists g'. rewrite E'. cbn [Go.bind fst snd].
        rewrite Eb in *. split; [reflexivity | exact Eb'].
Qed.

Lemma selected_zero (math_Pi : Q) (math_Sin : Q -> Q)
    (g : Load.NodeGenerator) :
  Load.memoryVariance g = 0 \/ unrecognized (Load.memoryVarianceFun g) ->
  forall g' dr, Load.getVarianceFuncByName math_Pi math_Sin g g' dr = 0.
Proof.
  intros H g' dr. unfold Load.getVarianceFuncByName.
  destruct H as [-> | (Hl & Hr & Hs)]; [reflexivity|].
  destruct (Load.memoryVariance g =? 0); [reflexivity|].
  apply String.eqb_neq in Hl, Hr, Hs. now rewrite Hl, Hr, Hs.
Qed.

(** With a variance percentage of 0 or an unrecognized model name, the
    memory loop of a generator constructed with a baseline that fits an
    [int] and a period of at least one second never panics and requests
    the baseline, memoryMBytes * 2^20 bytes, at every tick, however long
    it runs. *)
Theorem memoryLoop_without_variance
    (math_Pi : Q) (math_Sin : Q -> Q)
    (cores pct : Q) (mem var : Z) (fn : string) (period now0 now1 : Z)
    (start : Z) (inputs : list Load.TickInput) :
  var = 0 \/ unrecognized fn ->
  0 <= mem < 2 ^ 43 ->
  1 <= period <= 9223372036 ->
  exists g',
    Load.memoryLoop
      (Load.getVarianceFuncByName math_Pi math_Sin
         (Load.NewNodeGenerator cores pct mem var fn period now0 now1))
      (Load.NewNodeGenerator cores pct mem var fn period now0 now1)
      start inputs
    = Some (g', List.repeat (mem * 1048576) (List.length inputs))
    /\ Load.currentBytes (Load.state g') = mem * 1048576.
Proof.
  intros Hsel Hm Hp.
  pose proof (NewNodeGenerator_ticksPerPeriod
                cores pct mem var fn period now0 now1 Hp) as ET.
  set (g := Load.NewNodeGenerator cores pct mem var fn period now0 now1)
    in *.
  assert (EB : Load.currentBytes (Load.state g) = mem * 1048576).
  { cbn. unfold Go.int_mul, Go.pow_2_20.
    apply wrap64_fits. unfold Go.fits_int. lia. }
  unfold Load.memoryLoop.
  match goal with |- context [Load.memoryIterations ?dl ?g0 _] =>
    destruct (memoryIterations_zero_delta dl inputs
                (selected_zero math_Pi math_Sin g Hsel) g0)
      as (g' & E & Eb) end.
  - change (Load.ticksPerPeriod (Load.state g) < 2 ^ 63). lia.
  - unfold phase_ok.
    change (0 <= Load.currentTick (Load.state g)
              < Load.ticksPerPeriod (Load.state g)).
    rewrite ET. change (Load.currentTick (Load.state g)) with 0. lia.
  - change (0 <= Load.currentBytes (Load.state g) < 2 ^ 63). lia.
  - change (Load.currentBytes (Load.state _))
      with (Load.currentBytes (Load.state g)) in E at 1.
    exists g'. rewrite E. rewrite <- EB. split; [reflexivity|].
    exact Eb.
Qed.

Lemma memoryLoop_without_variance_witness :
  0 <= 100 < 2 ^ 43
  /\ exists g',
       Load.memoryLoop
         (Load.getVarianceFuncByName Sample.Pi Sample.Sin Sample.nocpu)
         Sample.nocpu 0 [Sample.input; Sample.input]
       = Some (g', List.repeat (100 * 1048576) 2)
       /\ Load.currentBytes (Load.state g') = 100 * 1048576.
Proof.
  split; [lia|].
  apply (memoryLoop_without_variance Sample.Pi Sample.Sin 0 50 100 0 ""
           1 0 0 0 [Sample.input; Sample.input]).
  - left. reflexivity.
  - lia.
  - lia.
Defined.

(** ** The earlier generator *)

(** With a variance of 1 to 100 percent and a baseline of less than 2^30
    MiB, the random model of the earlier generator leaves the generator
    as it is and returns a size between 0 and twice the baseline, so the
    size fits an [int] and the allocation that follows cannot panic on a
    negative capacity; the size lies within the variance percentage of
    the baseline, to within two bytes. *)
Theorem legacy_varianceRandom_range
    (g : LegacyLoad.NodeGenerator) (u : Q) :
  0 < LegacyLoad.memoryVariance g <= 100 ->
  0 <= LegacyLoad.memoryMBytes g < 2 ^ 30 ->
  (0 <= u < 1)%Q ->
  exists n,
    LegacyLoad.varianceRandom g u = Some (g, n)
    /\ 0 <= n <= 2 * (LegacyLoad.memoryMBytes g * 1048576)
    /\ Go.fits_int n
    /\ Load.make_bytes n = Some tt
    /\ (inject_Z (LegacyLoad.memoryMBytes g) * 1048576
          * (1 - inject_Z (LegacyLoad.memoryVariance g) / 100) - 2
        < inject_Z n
        < inject_Z (LegacyLoad.memoryMBytes g) * 1048576
          * (1 + inject_Z (LegacyLoad.memoryVariance g) / 100) + 2)%Q.
Proof.
  intros [Hv0 Hv1] [Hm Hm1] [Hu0 Hu1]. unfold LegacyLoad.varianceRandom.
  destruct (Z.ltb_spec 0 (LegacyLoad.memoryVariance g)) as [_ | ]; [|lia].
  eexists. split; [reflexivity|].
  unfold Go.float64_of_int, Go.pow_2_20.
  set (V := (inject_Z (LegacyLoad.memoryMBytes g) * inject_Z 1048576
             + inject_Z (LegacyLoad.memoryMBytes g) * inject_Z 1048576
               * (inject_Z (LegacyLoad.memoryVariance g) * (u * 2 - 1)
                  / 100))%Q).
  assert (HB : (0 <= inject_Z (LegacyLoad.memoryMBytes g))%Q).
  { change 0%Q with (inject_Z 0). rewrite <- Zle_Qle. exact Hm. }
  assert (HV : (0 < inject_Z (LegacyLoad.memoryVariance g) <= 100)%Q).
  { split.
    - change 0%Q with (inject_Z 0). rewrite <- Zlt_Qlt. exact Hv0.
    - change 100%Q with (inject_Z 100). rewrite <- Zle_Qle. exact Hv1. }
  assert (E2B : (inject_Z (2 * (LegacyLoad.memoryMBytes g * 1048576))
                 == 2 * (inject_Z (LegacyLoad.memoryMBytes g) * 1048576))%Q).
  { rewrite !inject_Z_mult. reflexivity. }
  set (B := inject_Z (LegacyLoad.memoryMBytes g)) in *.
  set (W := inject_Z (LegacyLoad.memoryVariance g)) in *.
  clearbody B W.
  assert (HP : (0 <= B * W)%Q) by (apply Qmult_le_0_compat; lra).
  assert (EV : (V == B * 1048576 + 1048576 * ((B * W) * (u * 2 - 1)) / 100)%Q).
  { subst V. change (inject_Z 1048576) with 1048576%Q. field. }
  clearbody V.
  assert (HW : (W / 100 <= 1)%Q).
  { apply Qle_shift_div_r; [reflexivity | lra]. }
  assert (Hlo : (B * 1048576 * (1 - W / 100) <= V)%Q).
  { rewrite EV. set (P := (B * W)%Q) in *.
    assert (E : (B * 1048576 * (1 - W / 100)
                 == B * 1048576 - 1048576 * P / 100)%Q)
      by (subst P; field).
    rewrite E. clearbody P.
    assert (Hpu : (0 <= P * u)%Q) by (apply Qmult_le_0_compat; lra).
    assert (E2 : (B * 1048576 + 1048576 * (P * (u * 2 - 1)) / 100
                  == B * 1048576 - 1048576 * P / 100
                     + (2097152 # 100) * (P * u))%Q) by field.
    rewrite E2. set (X := (P * u)%Q) in *. clearbody X. lra. }
  assert (Hhi : (V <= B * 1048576 * (1 + W / 100))%Q).
  { rewrite EV. set (P := (B * W)%Q) in *.
    assert (E : (B * 1048576 * (1 + W / 100)
                 == B * 1048576 + 1048576 * P / 100)%Q)
      by (subst P; field).
    rewrite E. clearbody P.
    assert (Hpu : (0 <= P * (1 - u))%Q) by (apply Qmult_le_0_compat; lra).
    assert (E2 : (B * 1048576 + 1048576 * P / 100
                  == B * 1048576 + 1048576 * (P * (u * 2 - 1)) / 100
                     + (2097152 # 100) * (P * (1 - u)))%Q) by field.
    rewrite E2. set (X := (P * (1 - u))%Q) in *. clearbody X. lra. }
  assert (HBM : (0 <= B * 1048576)%Q) by (apply Qmult_le_0_compat; lra).
  assert (HV0 : (0 <= V)%Q).
  { assert (0 <= B * 1048576 * (1 - W / 100))%Q; [|lra].
    apply Qmult_le_0_compat; lra. }
  assert (Htop : (V <= 2 * (B * 1048576))%Q).
  { assert (B * 1048576 * (1 + W / 100) <= 2 * (B * 1048576))%Q; [|lra].
    set (Y := (W / 100)%Q) in *. clearbody Y.
    set (C := (B * 1048576)%Q) in *. clearbody C. nra. }
  destruct (int_of_float64_nonneg V HV0) as [Hn0 Hn1].
  assert (Hn : 0 <= Go.int_of_float64 V).
  { rewrite Zle_Qle. exact Hn0. }
  assert (Hn2 : Go.int_of_float64 V
                <= 2 * (LegacyLoad.memoryMBytes g * 1048576)).
  { rewrite Zle_Qle, E2B. lra. }
  split; [split; assumption|]. split; [unfold Go.fits_int; lia|]. split.
  - unfold Load.make_bytes.
    destruct (Z.ltb_spec (Go.int_of_float64 V) 0); [lia | reflexivity].
  - pose proof (Qfloor_bounds V) as [_ Hfl].
    rewrite <- int_of_float64_floor in Hfl by exact HV0.
    split; lra.
Qed.

Lemma legacy_varianceRandom_range_witness :
  0 < LegacyLoad.memoryVariance
        (LegacyLoad.NewNodeGenerator 0 0 64 10 "random" 1) <= 100
  /\ exists n,
       LegacyLoad.varianceRandom
         (LegacyLoad.NewNodeGenerator 0 0 64 10 "random" 1) (1 # 4)
       = Some (LegacyLoad.NewNodeGenerator 0 0 64 10 "random" 1, n)
       /\ 0 <= n <= 2 * (64 * 1048576).
Proof.
  split; [cbn; lia|].
  destruct (legacy_varianceRandom_range
              (LegacyLoad.NewNodeGenerator 0 0 64 10 "random" 1) (1 # 4))
    as (n & E & Hn & _).
  - cbn; lia.
  - cbn; lia.
  - by_evaluation.
  - exists n. split; [exact E | exact Hn].
Defined.

Lemma legacy_varianceSineWave_spec
    (g : LegacyLoad.NodeGenerator) (u : Q) :
  (LegacyLoad.varianceSineWave g u = None
   <-> 0 < LegacyLoad.memoryVariance g
       /\ LegacyLoad.memoryVariancePeriod g = 0)
  /\ (forall g' n,
        LegacyLoad.varianceSineWave g u = Some (g', n) ->
        n = LegacyLoad.currentMemory g
        /\ g' = LegacyLoad.set_currentTick g (LegacyLoad.currentTick g')).
Proof.
  unfold LegacyLoad.varianceSineWave, Go.int_quo.
  destruct (Z.ltb_spec 0 (LegacyLoad.memoryVariance g)) as [Hv | Hv];
    [destruct (Z.eqb_spec (LegacyLoad.memoryVariancePeriod g) 0)
       as [Ep | Hp]|]; cbn [Go.bind].
  - split; [split; [intros _; split; assumption | reflexivity]|].
    intros g' n H. discriminate H.
  - split; [split; [intros H; discriminate H | intros [_ E]; contradiction]|].
    intros g' n H. inversion H; subst; clear H.
    destruct (_ <? _); cbn; split; reflexivity.
  - split; [split; [intros H; discriminate H | intros [E _]; lia]|].
    intros g' n H. inversion H; subst; clear H.
    split; [reflexivity|]. destruct g'. reflexivity.
Qed.

(** The sine model of the earlier generator panics exactly when the
    variance is positive and the period is 0 (an integer division by the
    period); whenever it returns, the size it returns is the current one
    and only the tick has changed: its sine never reaches the
    allocation. *)
Theorem legacy_varianceSineWave_behaviour
    (g : LegacyLoad.NodeGenerator) (u : Q) :
  (LegacyLoad.varianceSineWave g u = None
   <-> 0 < LegacyLoad.memoryVariance g
       /\ LegacyLoad.memoryVariancePeriod g = 0)
  /\ (forall g' n,
        LegacyLoad.varianceSineWave g u = Some (g', n) ->
        n = LegacyLoad.currentMemory g
        /\ g' = LegacyLoad.set_currentTick g (LegacyLoad.currentTick g')).
Proof. exact (legacy_varianceSineWave_spec g u). Qed.

(** For a positive variance and a period of 1 to 9223372036 seconds, the
    sine model of the earlier generator moves a tick inside
    [0, 2 * period) to the next one modulo 2 * period. *)
Theorem legacy_varianceSineWave_tick
    (g : LegacyLoad.NodeGenerator) (u : Q) :
  0 < LegacyLoad.memoryVariance g ->
  1 <= LegacyLoad.memoryVariancePeriod g <= 9223372036 ->
  0 <= LegacyLoad.currentTick g < 2 * LegacyLoad.memoryVariancePeriod g ->
  exists g',
    LegacyLoad.varianceSineWave g u = Some (g', LegacyLoad.currentMemory g)
    /\ LegacyLoad.currentTick g'
       = (LegacyLoad.currentTick g + 1)
           mod (2 * LegacyLoad.memoryVariancePeriod g)
    /\ 0 <= LegacyLoad.currentTick g'
         < 2 * LegacyLoad.memoryVariancePeriod g.
Proof.
  intros Hv Hp Ht. unfold LegacyLoad.varianceSineWave, Go.int_quo.
  apply Z.ltb_lt in Hv. rewrite Hv.
  destruct (Z.eqb_spec (LegacyLoad.memoryVariancePeriod g) 0); [lia|].
  cbn [Go.bind].
  unfold Go.int_mul, Go.int_add, Go.Second, LegacyLoad.TICK_INTERVAL,
    Go.Millisecond.
  rewrite (wrap64_fits (LegacyLoad.memoryVariancePeriod g * 1000000000))
    by (unfold Go.fits_int; lia).
  replace (LegacyLoad.memoryVariancePeriod g * 1000000000)
    with (2 * LegacyLoad.memoryVariancePeriod g * (500 * 1000000)) by lia.
  rewrite Z.quot_mul by lia.
  rewrite !wrap64_fits by (unfold Go.fits_int; lia).
  set (T := 2 * LegacyLoad.memoryVariancePeriod g) in *.
  destruct (Z.ltb_spec (LegacyLoad.currentTick g + 1) T) as [Hlt | Hge].
  - eexists. split; [reflexivity|].
    cbn [LegacyLoad.currentTick LegacyLoad.set_currentTick].
    rewrite Z.mod_small by lia. lia.
  - eexists. split; [reflexivity|].
    cbn [LegacyLoad.currentTick LegacyLoad.set_currentTick].
    replace (LegacyLoad.currentTick g + 1) with T by lia.
    rewrite Z.mod_same by lia. lia.
Qed.

Lemma legacy_varianceSineWave_tick_witness :
  0 < LegacyLoad.memoryVariance
        (LegacyLoad.NewNodeGenerator 0 0 64 10 "sine" 1)
  /\ exists g',
       LegacyLoad.varianceSineWave
         (LegacyLoad.NewNodeGenerator 0 0 64 10 "sine" 1) 0%Q
       = Some (g', LegacyLoad.currentMemory
                     (LegacyLoad.NewNodeGenerator 0 0 64 10 "sine" 1))
       /\ LegacyLoad.currentTick g' = (0 + 1) mod (2 * 1)
       /\ 0 <= LegacyLoad.currentTick g' < 2 * 1.
Proof.
  split; [cbn; lia|].
  apply (legacy_varianceSineWave_tick
           (LegacyLoad.NewNodeGenerator 0 0 64 10 "sine" 1) 0%Q);
    cbn; lia.
Defined.

Section LegacyConstantLoop.

Variable calc : LegacyLoad.varianceFunc.
Variable inv : LegacyLoad.NodeGenerator -> Prop.

Hypothesis calc_keeps :
  forall g u, inv g ->
    exists g', calc g u = Some (g', LegacyLoad.currentMemory g)
               /\ inv g'
               /\ LegacyLoad.currentMemory g' = LegacyLoad.currentMemory g.

Hypothesis inv_set_currentMemory :
  forall g m, inv g -> inv (LegacyLoad.set_currentMemory g m).

(** A variance function that hands back the current size keeps the loop
    of the earlier generator at that size. *)
Lemma legacy_memoryIterations_constant (draws : list Q) :
  forall g : LegacyLoad.NodeGenerator,
    inv g ->
    0 <= LegacyLoad.currentMemory g ->
    exists g',
      LegacyLoop.memoryIterations calc g draws
      = Some (g', List.repeat (LegacyLoad.currentMemory g)
                    (List.length draws))
      /\ LegacyLoad.currentMemory g' = LegacyLoad.currentMemory g.
Proof.
  induction draws as [| u rest IH]; intros g Hi Hm.
  - exists g. split; reflexivity.
  - cbn [LegacyLoop.memoryIterations List.length List.repeat].
    unfold LegacyLoop.memoryIteration.
    destruct (calc_keeps g u Hi) as (g1 & E & Hi1 & Em).
    rewrite E. cbn [Go.bind fst snd]. unfold Load.make_bytes.
    destruct (Z.ltb_spec (LegacyLoad.currentMemory g) 0); [lia|].
    cbn [Go.bind fst snd].
    destruct (IH (LegacyLoad.set_currentMemory g1
                    (LegacyLoad.currentMemory g)))
      as (g' & E' & Em').
    + apply inv_set_currentMemory. exact Hi1.
    + cbn. exact Hm.
    + exists g'. rewrite E'. cbn [Go.bind fst snd].
      cbn [LegacyLoad.set_currentMemory LegacyLoad.currentMemory] in *.
      split; [reflexivity | exact Em'].
Qed.

End LegacyConstantLoop.

(** In the earlier generator every model but "random" leaves the
    allocation alone: unless the sine model is selected with a positive
    variance and a period of 0 (where it panics), the memory loop
    requests the current size at every tick, however long it runs. *)
Theorem legacy_memoryLoop_constant
    (g : LegacyLoad.NodeGenerator) (draws : list Q) :
  LegacyLoad.memoryVarianceFun g <> "random"%string ->
  0 <= LegacyLoad.currentMemory g ->
  LegacyLoad.memoryVariance g <= 0
    \/ LegacyLoad.memoryVariancePeriod g <> 0 ->
  exists g',
    LegacyLoop.memoryLoop g draws
    = Some (g', List.repeat (LegacyLoad.currentMemory g)
                  (List.length draws))
    /\ LegacyLoad.currentMemory g' = LegacyLoad.currentMemory g.
Proof.
  intros Hname Hm Hsafe. unfold LegacyLoop.memoryLoop.
  set (I := fun h : LegacyLoad.NodeGenerator =>
              LegacyLoad.memoryVariance h = LegacyLoad.memoryVariance g
              /\ LegacyLoad.memoryVariancePeriod h
                 = LegacyLoad.memoryVariancePeriod g).
  assert (Hset : forall h m, I h -> I (LegacyLoad.set_currentMemory h m)).
  { intros h m Hh. exact Hh. }
  assert (Hlin : forall h u, I h ->
            exists h', LegacyLoad.varianceLinear h u
                       = Some (h', LegacyLoad.currentMemory h)
                       /\ I h'
                       /\ LegacyLoad.currentMemory h'
                          = LegacyLoad.currentMemory h).
  { intros h u Hh. exists h. repeat split; apply Hh. }
  assert (Hsin : forall h u, I h ->
            exists h', LegacyLoad.varianceSineWave h u
                       = Some (h', LegacyLoad.currentMemory h)
                       /\ I h'
                       /\ LegacyLoad.currentMemory h'
                          = LegacyLoad.currentMemory h).
  { intros h u [Hv Hp].
    destruct (LegacyLoad.varianceSineWave h u) as [[h' n] |] eqn:E.
    - destruct (proj2 (legacy_varianceSineWave_spec h u) h' n E)
        as [-> Eh].
      exists h'. split; [reflexivity|]. rewrite Eh. cbn.
      repeat split; assumption.
    - apply (proj1 (legacy_varianceSineWave_spec h u)) in E.
      rewrite Hv, Hp in E. lia. }
  unfold LegacyLoad.getVarianceFuncByName.
  apply String.eqb_neq in Hname. rewrite Hname.
  destruct (String.eqb (LegacyLoad.memoryVarianceFun g) "linear");
    [|destruct (String.eqb (LegacyLoad.memoryVarianceFun g) "sine")].
  - apply (legacy_memoryIterations_constant _ I Hlin Hset);
      [split; reflexivity | exact Hm].
  - apply (legacy_memoryIterations_constant _ I Hsin Hset);
      [split; reflexivity | exact Hm].
  - apply (legacy_memoryIterations_constant _ I Hlin Hset);
      [split; reflexivity | exact Hm].
Qed.

Lemma legacy_memoryLoop_constant_witness :
  0 <= LegacyLoad.currentMemory
         (LegacyLoad.NewNodeGenerator 0 0 64 10 "sine" 1)
  /\ exists g',
       LegacyLoop.memoryLoop
         (LegacyLoad.NewNodeGenerator 0 0 64 10 "sine" 1) [0%Q; 0%Q]
       = Some (g', List.repeat
                     (LegacyLoad.currentMemory
                        (LegacyLoad.NewNodeGenerator 0 0 64 10 "sine" 1))
                     2)
       /\ LegacyLoad.currentMemory g'
          = LegacyLoad.currentMemory
              (LegacyLoad.NewNodeGenerator 0 0 64 10 "sine" 1).
Proof.
  split; [by_evaluation|].
  apply (legacy_memoryLoop_constant
           (LegacyLoad.NewNodeGenerator 0 0 64 10 "sine" 1) [0%Q; 0%Q]).
  - discriminate.
  - by_evaluation.
  - right. cbn. discriminate.
Defined.

(** ** Return paths of the gRPC handler *)

(** On every return path the handler starts the load generator exactly
    once, before anything else, and stops it exactly once, as its last
    action, right after closing the request log. *)
Theorem Handle_starts_and_stops_load
    (f : Handlers.FakeServer) (o : Handlers.Observed) :
  exists mid,
    fst (Handlers.Handle f o)
    = Handlers.EvGenerate :: mid
        ++ [Handlers.EvRequestFinished; Handlers.EvStopLoad]
    /\ ~ List.In Handlers.EvGenerate mid
    /\ ~ List.In Handlers.EvStopLoad mid
    /\ ~ List.In Handlers.EvRequestFinished mid.
Proof.
  unfold Handlers.Handle, Handlers.deferred.
  destruct (Handlers.injected o) as [[code msg] |].
  - eexists [_; _; _]. split; [reflexivity|].
    repeat split; intros H; cbn in H;
      repeat (destruct H as [H | H]; [discriminate H|]); exact H.
  - set (n := (0 <? List.length (Handlers.upstreamURIs f))%nat).
    destruct (if n then Handlers.poolError o else None) as [msg |].
    + destruct n.
      * eexists [_; _; _; _; _]. split; [reflexivity|].
        repeat split; intros H; cbn in H;
          repeat (destruct H as [H | H]; [discriminate H|]); exact H.
      * eexists [_; _; _; _]. split; [reflexivity|].
        repeat split; intros H; cbn in H;
          repeat (destruct H as [H | H]; [discriminate H|]); exact H.
    + destruct n;
        destruct (0 <? Go.int_sub (Handlers.d o) (Handlers.et o)).
      * eexists [_; _; _; _; _; _; _]. split; [reflexivity|].
        repeat split; intros H; cbn in H;
          repeat (destruct H as [H | H]; [discriminate H|]); exact H.
      * eexists [_; _; _; _; _; _]. split; [reflexivity|].
        repeat split; intros H; cbn in H;
          repeat (destruct H as [H | H]; [discriminate H|]); exact H.
      * eexists [_; _; _; _; _; _]. split; [reflexivity|].
        repeat split; intros H; cbn in H;
          repeat (destruct H as [H | H]; [discriminate H|]); exact H.
      * eexists [_; _; _; _; _]. split; [reflexivity|].
        repeat split; intros H; cbn in H;
          repeat (destruct H as [H | H]; [discriminate H|]); exact H.
Qed.

(** The handler returns no response exactly when an error was injected
    or, with upstream URIs configured, the worker pool reported an error;
    a pool error without configured URIs is never looked at. *)
Theorem Handle_response_iff_no_error
    (f : Handlers.FakeServer) (o : Handlers.Observed) :
  fst (snd (Handlers.Handle f o)) = None
  <-> (Handlers.injected o <> None
       \/ (Handlers.upstreamURIs f <> []
           /\ Handlers.poolError o <> None)).
Proof.
  unfold Handlers.Handle.
  destruct (Handlers.injected o) as [[code msg] |]; cbn [fst snd].
  - split; [intros _; left; discriminate | reflexivity].
  - destruct (Handlers.upstreamURIs f) as [| u us];
      cbn [List.length Nat.ltb Nat.leb].
    + cbn [fst snd]. split; [intros H; discriminate H|].
      intros [H | [H _]]; contradiction.
    + destruct (Handlers.poolError o) as [msg |]; cbn [fst snd].
      * split; [intros _; right; split; discriminate | reflexivity].
      * split; [intros H; discriminate H|].
        intros [H | [_ H]]; contradiction.
Qed.

(** An injected error ends the request at once: no fan-out to the
    upstreams, no duration drawn, no sleep, no response; the metadata
    carries the injected code. *)
Theorem Handle_injected_short_circuit
    (f : Handlers.FakeServer) (o : Handlers.Observed)
    (code : Z) (msg : string) :
  Handlers.injected o = Some (code, msg) ->
  (forall w us, ~ List.In (Handlers.EvFanOut w us)
                    (fst (Handlers.Handle f o)))
  /\ ~ List.In Handlers.EvCalculate (fst (Handlers.Handle f o))
  /\ (forall rd, ~ List.In (Handlers.EvSleepService rd)
                     (fst (Handlers.Handle f o)))
  /\ Handlers.sleeps (fst (Handlers.Handle f o)) = []
  /\ fst (snd (Handlers.Handle f o)) = None
  /\ List.In (Handlers.EvSetMetadata (Go.Itoa code))
       (fst (Handlers.Handle f o))
  /\ List.In (Handlers.EvSetError msg) (fst (Handlers.Handle f o)).
Proof.
  intros E. unfold Handlers.Handle. rewrite E. cbn [fst snd].
  split; [|split; [|split; [|split; [|split; [|split]]]]].
  - intros w us H. cbn in H.
    repeat (destruct H as [H | H]; [discriminate H|]). exact H.
  - intros H. cbn in H.
    repeat (destruct H as [H | H]; [discriminate H|]). exact H.
  - intros rd H. cbn in H.
    repeat (destruct H as [H | H]; [discriminate H|]). exact H.
  - reflexivity.
  - reflexivity.
  - cbn. auto.
  - cbn. auto.
Qed.

Lemma Handle_injected_short_circuit_witness :
  Handlers.injected
    (Handlers.mkObserved 0 (Some (14, "unavailable"%string)) None []
       100 30 0)
  = Some (14, "unavailable"%string)
  /\ Handlers.sleeps
       (fst (Handlers.Handle
               (Handlers.mkServer "web" "hello" ["http://api"%string] 1)
               (Handlers.mkObserved 0 (Some (14, "unavailable"%string))
                  None [] 100 30 0)))
     = [].
Proof.
  split; [reflexivity|].
  exact (proj1 (proj2 (proj2 (proj2
           (Handle_injected_short_circuit
              (Handlers.mkServer "web" "hello" ["http://api"%string] 1)
              (Handlers.mkObserved 0 (Some (14, "unavailable"%string))
                 None [] 100 30 0)
              14 "unavailable" eq_refl))))).
Defined.

(** The worker pool is used exactly when no error was injected and
    upstream URIs are configured, and then with the configured worker
    count and all the URIs. *)
Theorem Handle_fan_out
    (f : Handlers.FakeServer) (o : Handlers.Observed)
    (w : Z) (us : list string) :
  List.In (Handlers.EvFanOut w us) (fst (Handlers.Handle f o))
  <-> (Handlers.injected o = None
       /\ Handlers.upstreamURIs f <> []
       /\ w = Handlers.workerCount f
       /\ us = Handlers.upstreamURIs f).
Proof.
  unfold Handlers.Handle, Handlers.deferred.
  destruct (Handlers.injected o) as [[code msg] |]; cbn [fst snd].
  - split.
    + intros H. cbn in H.
      repeat (destruct H as [H | H]; [discriminate H|]). contradiction.
    + intros [H _]. discriminate H.
  - destruct (Handlers.upstreamURIs f) as [| u rest] eqn:Eu;
      cbn [List.length Nat.ltb Nat.leb].
    + split.
      * intros H.
        destruct (0 <? _); cbn in H;
          repeat (destruct H as [H | H]; [discriminate H|]);
          contradiction.
      * intros (_ & H & _). contradiction.
    + split.
      * intros H.
        assert (Hev : Handlers.EvFanOut w us
                      = Handlers.EvFanOut (Handlers.workerCount f)
                          (u :: rest)).
        { destruct (Handlers.poolError o);
            [|destruct (0 <? _)]; cbn in H;
            repeat (destruct H as [H | H];
                    [first [discriminate H | symmetry; exact H]|]);
            contradiction. }
        inversion Hev. repeat split. discriminate.
      * intros (_ & _ & -> & ->).
        destruct (Handlers.poolError o); cbn; auto.
Qed.

(** ** Overlapping generations *)

(** The stop handle reads [g.finished] when it runs, and [Generate]
    replaces that channel.  After a second [Generate] on the same
    generator both handles send into the second channel: if no loop has
    received in between, the first handle fills the buffer and the first
    send of the second handle blocks. *)
Theorem overlapping_handles_block
    (math_Pi : Q) (math_Sin : Q -> Q) (g : Load.NodeGenerator) (n : nat) :
  Load.runSchedule
    (fst (fst (Load.Generate math_Pi math_Sin
                 (fst (fst (Load.Generate math_Pi math_Sin g))))))
    (snd (Load.Generate math_Pi math_Sin g)
       ++ snd (Load.Generate math_Pi math_Sin
                 (fst (fst (Load.Generate math_Pi math_Sin g)))))
    (List.repeat Load.HandleStep (4 + n))
  = Load.Blocked
  /\ Load.state
       (fst (fst (Load.Generate math_Pi math_Sin
                    (fst (fst (Load.Generate math_Pi math_Sin g))))))
     = Load.state g.
Proof. split; reflexivity. Qed.

(** ** The response tree *)

(** What [AppendUpstream] leaves of a response when it appends. *)
Lemma AppendUpstream_some (r v : ResponsePkg.Response) :
  ResponsePkg.AppendUpstream r (Some v)
  = Some (ResponsePkg.mkResponse
            (ResponsePkg.Name r) (ResponsePkg.URI r) (ResponsePkg.Type_ r)
            (ResponsePkg.Duration r) (ResponsePkg.Body r)
            (Some (match ResponsePkg.UpstreamCalls r with
                   | None => []
                   | Some l => l
                   end ++ [v]))).
Proof. reflexivity. Qed.

(** [AppendUpstreams] panics exactly when one of the pointers is nil. *)
Theorem AppendUpstreams_panics_iff_nil
    (reps : list (option ResponsePkg.Response)) :
  forall r : ResponsePkg.Response,
    ResponsePkg.AppendUpstreams r reps = None <-> List.In None reps.
Proof.
  induction reps as [| u rest IH]; intros r; cbn.
  - split; [discriminate | contradiction].
  - destruct u as [v |]; cbn [Go.bind ResponsePkg.AppendUpstream].
    + rewrite IH. split; [auto|]. intros [H | H]; [discriminate H | exact H].
    + split; auto.
Qed.

(** Appending responses that are all present keeps every field but the
    upstream calls, and extends the upstream calls by the new responses
    in their order; with nothing to append the response, a nil slice
    included, is left as it is. *)
Theorem AppendUpstreams_appends
    (vs : list ResponsePkg.Response) :
  forall r : ResponsePkg.Response,
    ResponsePkg.AppendUpstreams r (List.map Some vs)
    = Some (match vs with
            | [] => r
            | _ :: _ =>
                ResponsePkg.mkResponse
                  (ResponsePkg.Name r) (ResponsePkg.URI r)
                  (ResponsePkg.Type_ r) (ResponsePkg.Duration r)
                  (ResponsePkg.Body r)
                  (Some (match ResponsePkg.UpstreamCalls r with
                         | None => []
                         | Some l => l
                         end ++ vs))
            end).
Proof.
  induction vs as [| v rest IH]; intros r; [reflexivity|].
  cbn [List.map ResponsePkg.AppendUpstreams].
  rewrite AppendUpstream_some. cbn [Go.bind]. rewrite IH.
  destruct rest as [| v' rest']; [reflexivity|].
  cbn [ResponsePkg.Name ResponsePkg.URI ResponsePkg.Type_
       ResponsePkg.Duration ResponsePkg.Body ResponsePkg.UpstreamCalls].
  rewrite <- List.app_assoc. reflexivity.
Qed.

(** Appending two batches one after the other is appending them as one
    batch, panics included. *)
Theorem AppendUpstreams_app
    (a b : list (option ResponsePkg.Response)) :
  forall r : ResponsePkg.Response,
    ResponsePkg.AppendUpstreams r (a ++ b)
    = Go.bind (ResponsePkg.AppendUpstreams r a)
        (fun r' => ResponsePkg.AppendUpstreams r' b).
Proof.
  induction a as [| u rest IH]; intros r; [reflexivity|].
  cbn [List.app ResponsePkg.AppendUpstreams].
  destruct (ResponsePkg.AppendUpstream r u) as [r' |]; cbn [Go.bind];
    [apply IH | reflexivity].
Qed.

(** ** Edges of the CPU loop *)

(** For a core count within the range of [int]: no CPU loop is started
    for a count of 0; for any other count the loop is started with the
    count's whole part as its number of workers, so a count strictly
    between -1 and 1 (or a negative one) starts a loop that awaits the
    stop signal but has no worker at all. *)
Theorem generateCPU_workers (g : Load.NodeGenerator) :
  (- maxInt <= Load.cpuCoresCount g <= maxInt)%Q ->
  ((Load.cpuCoresCount g == 0)%Q -> Load.generateCPU g = [])
  /\ (~ (Load.cpuCoresCount g == 0)%Q ->
      exists n,
        Load.generateCPU g = [Load.CPULoop n (Load.workerCycle g)]
        /\ ((Load.cpuCoresCount g < 1)%Q -> n = 0%nat)
        /\ ((1 <= Load.cpuCoresCount g)%Q ->
            (1 <= n)%nat
            /\ (inject_Z (Z.of_nat n) <= Load.cpuCoresCount g
                < inject_Z (Z.of_nat n) + 1)%Q)).
Proof.
  intros _. unfold Load.generateCPU. split.
  - intros E. apply Qeq_bool_iff in E. now rewrite E.
  - intros N.
    destruct (Qeq_bool (Load.cpuCoresCount g) 0) eqn:E;
      [apply Qeq_bool_iff in E; contradiction|].
    eexists. split; [reflexivity|]. split.
    + intros Hlt.
      destruct (Qlt_le_dec (Load.cpuCoresCount g) 0) as [Hn | Hp].
      * destruct (int_of_float64_nonpos _ (Qlt_le_weak _ _ Hn)) as [_ Hu].
        change 0%Q with (inject_Z 0) in Hu. rewrite <- Zle_Qle in Hu.
        destruct (Go.int_of_float64 (Load.cpuCoresCount g)); cbn; lia.
      * rewrite int_of_float64_floor by exact Hp.
        assert (Hf : Qfloor (Load.cpuCoresCount g) <= 0).
        { pose proof (Qfloor_bounds (Load.cpuCoresCount g)) as [Hl _].
          assert (H1 : (inject_Z (Qfloor (Load.cpuCoresCount g))
                        < inject_Z 1)%Q)
            by (change (inject_Z 1) with 1%Q; lra).
          rewrite <- Zlt_Qlt in H1. lia. }
        destruct (Qfloor (Load.cpuCoresCount g)); cbn; lia.
    + intros Hge.
      rewrite int_of_float64_floor by lra.
      assert (Hf : 1 <= Qfloor (Load.cpuCoresCount g)).
      { change 1 with (Qfloor 1). now apply Qfloor_resp_le. }
      rewrite Z2Nat.id by lia.
      split; [lia|]. apply Qfloor_bounds.
Qed.

Lemma generateCPU_workers_witness :
  (- maxInt <= Load.cpuCoresCount Sample.halfcore <= maxInt)%Q
  /\ exists n,
       Load.generateCPU Sample.halfcore
       = [Load.CPULoop n (Load.workerCycle Sample.halfcore)]
       /\ n = 0%nat.
Proof.
  split; [by_evaluation|].
  destruct (proj2 (generateCPU_workers Sample.halfcore
                     ltac:(by_evaluation)))
    as (n & E & H0 & _).
  - intros H. vm_compute in H. discriminate H.
  - exists n. split; [exact E|]. apply H0. by_evaluation.
Defined.

(** For a CPU setting from 100 up to a million percent, the sleep of the
    duty cycle is zero or negative, which [time.Sleep] returns from at
    once, and the spin lasts the whole unit interval or longer: the
    worker never yields. *)
Theorem cpu_duty_cycle_saturated (g : Load.NodeGenerator) :
  (100 <= Load.cpuPercentage g <= 1000000)%Q ->
  Load.sleepDuration g <= 0 /\ unitInterval <= Load.runDuration g.
Proof.
  intros [H0 H1].
  unfold Load.sleepDuration, Load.runDuration, Go.int_mul, Go.Microsecond.
  assert (Hs : (- (1000000000) <= Load.sleepMicrosecond g <= 0)%Q).
  { unfold Load.sleepMicrosecond, Load.runMicrosecond,
      Load.unitHundredsOfMicrosecond. lra. }
  assert (Hr : (100000 <= Load.runMicrosecond g <= 1000000000)%Q).
  { unfold Load.runMicrosecond, Load.unitHundredsOfMicrosecond. lra. }
  destruct Hs as [Hs0 Hs1]. destruct Hr as [Hr0 Hr1].
  pose proof (int_of_float64_monotone _ _ Hs0) as A.
  pose proof (int_of_float64_monotone _ _ Hs1) as B.
  pose proof (int_of_float64_monotone _ _ Hr0) as C.
  pose proof (int_of_float64_monotone _ _ Hr1) as D.
  change (Go.int_of_float64 (- (1000000000))) with (-1000000000) in A.
  change (Go.int_of_float64 0) with 0 in B.
  change (Go.int_of_float64 100000) with 100000 in C.
  change (Go.int_of_float64 1000000000) with 1000000000 in D.
  rewrite !wrap64_fits by (unfold Go.fits_int; lia).
  unfold unitInterval, Go.Millisecond. lia.
Qed.

Lemma cpu_duty_cycle_saturated_witness :
  (100 <= Load.cpuPercentage
            (Load.NewNodeGenerator 1 150 0 0 "" 1 0 0) <= 1000000)%Q
  /\ Load.sleepDuration (Load.NewNodeGenerator 1 150 0 0 "" 1 0 0) <= 0.
Proof.
  split; [by_evaluation|].
  refine (proj1 (cpu_duty_cycle_saturated
                   (Load.NewNodeGenerator 1 150 0 0 "" 1 0 0) _)).
  by_evaluation.
Defined.
